(** * The image viewer widget of [packages/imageviewer/src/widget.ts]

    A shallow embedding of the [ImageViewer] class: its five numeric
    properties and their setters, the style recomputation, the rendering of
    the document as a data URI, the update-request guard and the readiness
    continuation scheduled by the constructor.

    State is passed explicitly.  A method that can raise a [TypeError]
    (dereferencing the [null] returned by [querySelector]) returns an
    [Outcome] that keeps the state reached at the point of the throw, as the
    mutable object would. *)

From Stdlib Require Import ZArith QArith String Ascii List Bool Lia DecimalString.
Import ListNotations.
Local Close Scope Q_scope.
Local Open Scope string_scope.

(* ================================================================= *)
(** ** JavaScript numbers *)

(** The operations the widget applies to values of type [number].  The
    widget is written once over this interface; [strict_eq] is [===] (no
    reflexivity is assumed, since [NaN === NaN] is false), [rem] is the [%]
    operator and [toString] the conversion done by a template literal. *)
Class JSNumber (number : Type) : Type := {
  lit : Z -> number;
  strict_eq : number -> number -> bool;
  mul : number -> number -> number;
  rem : number -> number -> number;
  toString : number -> string
}.

(** Integer-valued numbers.  On integers [%] is the truncated remainder
    (the sign of the result is the sign of the dividend), which is [Z.rem]
    and is exact on doubles; [===] is equality and a template literal
    prints the decimal numeral.  Products are those of doubles as long as
    they stay among the safe integers.  The two zeros of a double are
    identified: [===] and the printed numeral do not tell them apart. *)
#[export] Instance Z_number : JSNumber Z := {|
  lit := fun z => z;
  strict_eq := Z.eqb;
  mul := Z.mul;
  rem := Z.rem;
  toString := fun z => NilZero.string_of_int (Z.to_int z)
|}.

(** Digits of [r / d] after the decimal point, for [0 <= r < d]. *)
Fixpoint fraction_digits (fuel : nat) (r d : Z) : string :=
  match fuel with
  | O => EmptyString
  | S fuel' =>
      if (r =? 0)%Z then EmptyString
      else
        NilZero.string_of_int (Z.to_int (10 * r / d)) ++
        fraction_digits fuel' ((10 * r) mod d)%Z d
  end.

(** The decimal numeral of a rational, with up to 17 digits after the
    point. *)
Definition Q_toString (q : Q) : string :=
  let d := Zpos (Qden q) in
  let a := Z.abs (Qnum q) in
  (if (Qnum q <? 0)%Z then "-" else "") ++
  NilZero.string_of_int (Z.to_int (a / d)) ++
  (if (a mod d =? 0)%Z then "" else "." ++ fraction_digits 17 (a mod d)%Z d).

(** The remainder of a truncated division. *)
Definition Q_rem (a b : Q) : Q :=
  let q := Qdiv a b in
  Qminus a (Qmult b (inject_Z (Z.quot (Qnum q) (Zpos (Qden q))))).

(** Fractional numbers, as exact rationals.  [===] is equality of values,
    products and remainders are exact, and a template literal prints the
    decimal numeral.  This is what doubles compute as long as the values
    that occur are doubles with a short decimal numeral (integers, halves,
    quarters and the like, as a zoom or a partial inversion produces); it
    does not model rounding, [NaN] or the exponent notation. *)
#[export] Instance Q_number : JSNumber Q := {|
  lit := inject_Z;
  strict_eq := Qeq_bool;
  mul := Qmult;
  rem := Q_rem;
  toString := Q_toString
|}.

(* ================================================================= *)
(** ** The DOM subtree owned by the widget *)

(** Replace or add the binding of [k] in an attribute or style list. *)
Fixpoint assoc_set (k v : string) (l : list (string * string))
  : list (string * string) :=
  match l with
  | [] => [(k, v)]
  | (k', v') :: l' =>
      if String.eqb k k' then (k, v) :: l' else (k', v') :: assoc_set k v l'
  end.

Fixpoint assoc_get (k : string) (l : list (string * string)) : option string :=
  match l with
  | [] => None
  | (k', v') :: l' => if String.eqb k k' then Some v' else assoc_get k l'
  end.

(** An element: its tag, its attributes, its inline style and its children
    in document order. *)
Unset Elimination Schemes.
Inductive Element : Type :=
  mkElement (localName : string)
            (attributes : list (string * string))
            (style : list (string * string))
            (childNodes : list Element).
Set Elimination Schemes.

Definition localName (e : Element) : string :=
  match e with mkElement n _ _ _ => n end.
Definition attributes (e : Element) : list (string * string) :=
  match e with mkElement _ a _ _ => a end.
Definition style (e : Element) : list (string * string) :=
  match e with mkElement _ _ s _ => s end.
Definition childNodes (e : Element) : list Element :=
  match e with mkElement _ _ _ c => c end.

Definition createElement (tag : string) : Element := mkElement tag [] [] [].

Definition appendChild (parent child : Element) : Element :=
  match parent with
  | mkElement n a s c => mkElement n a s (c ++ [child])
  end.

Definition setAttribute (name value : string) (e : Element) : Element :=
  match e with
  | mkElement n a s c => mkElement n (assoc_set name value a) s c
  end.

Definition getAttribute (name : string) (e : Element) : option string :=
  assoc_get name (attributes e).

(** [e.style.prop = value].  The assigned string is kept as written. *)
Definition setStyle (prop value : string) (e : Element) : Element :=
  match e with
  | mkElement n a s c => mkElement n a (assoc_set prop value s) c
  end.

Definition getStyle (prop : string) (e : Element) : option string :=
  assoc_get prop (style e).

(** [el.classList.add(name)] on an element without that class. *)
Definition addClass (name : string) (e : Element) : Element :=
  match getAttribute "class" e with
  | None => setAttribute "class" name e
  | Some old => setAttribute "class" (old ++ " " ++ name) e
  end.

(** First hit of [f] along a list, in order. *)
Definition first_some {A B : Type} (f : A -> option B) : list A -> option B :=
  fix go (l : list A) : option B :=
    match l with
    | [] => None
    | a :: l' => match f a with Some b => Some b | None => go l' end
    end.

(** Rewrite the first member of a list on which [upd] succeeds. *)
Definition update_first {A : Type} (upd : A -> option A)
  : list A -> option (list A) :=
  fix go (l : list A) : option (list A) :=
    match l with
    | [] => None
    | a :: l' =>
        match upd a with
        | Some a' => Some (a' :: l')
        | None => option_map (cons a) (go l')
        end
    end.

(** The first element with tag [sel] in the subtree rooted at [e], [e]
    included, in document (pre-)order. *)
Fixpoint find_in (sel : string) (e : Element) : option Element :=
  match e with
  | mkElement n _ _ c =>
      if String.eqb n sel then Some e else first_some (find_in sel) c
  end.

(** The same traversal, applying the in-place mutation [f] to the element
    it finds. *)
Fixpoint mutate_in (sel : string) (f : Element -> Element) (e : Element)
  : option Element :=
  match e with
  | mkElement n a s c =>
      if String.eqb n sel then Some (f e)
      else option_map (mkElement n a s) (update_first (mutate_in sel f) c)
  end.

(** [root.querySelector(sel)] for a type selector: the first descendant of
    [root] (never [root] itself) with that tag, or [None] for [null]. *)
Definition querySelector (sel : string) (root : Element) : option Element :=
  first_some (find_in sel) (childNodes root).

(** [let n = root.querySelector(sel); f(n)] where [f] mutates [n] in place:
    the tree after the mutation, or [None] when [n] is [null]. *)
Definition mutate_selected (sel : string) (f : Element -> Element)
  (root : Element) : option Element :=
  match root with
  | mkElement n a s c =>
      option_map (mkElement n a s) (update_first (mutate_in sel f) c)
  end.

(** [Private.createNode].  [appendChild] mutates its receiver, and the image
    is appended to [innerNode] after [innerNode] was attached to [node]; with
    values in place of references the tree is assembled from the leaf up. *)
Definition createNode : Element :=
  let image := createElement "img" in
  let innerNode := appendChild (createElement "div") image in
  let node := appendChild (createElement "div") innerNode in
  node.

(* ================================================================= *)
(** ** Promises and the document context *)

Inductive PromiseState (A : Type) : Type :=
| Pending
| Fulfilled (value : A)
| Rejected (reason : string).
Arguments Pending {A}.
Arguments Fulfilled {A} value.
Arguments Rejected {A} reason.

(** [PromiseDelegate<T>]: a promise together with the means to settle it. *)
Record PromiseDelegate (A : Type) : Type := mkPromiseDelegate {
  promise : PromiseState A
}.
Arguments mkPromiseDelegate {A} promise.
Arguments promise {A} p.

Definition new_PromiseDelegate {A : Type} : PromiseDelegate A :=
  mkPromiseDelegate Pending.

(** Settling a promise that is already settled does nothing. *)
Definition resolve {A : Type} (v : A) (d : PromiseDelegate A)
  : PromiseDelegate A :=
  match promise d with
  | Pending => mkPromiseDelegate (Fulfilled v)
  | _ => d
  end.

(** The methods of the widget that are connected to signals. *)
Inductive Slot : Type := Slot_onTitleChanged | Slot_update.

Definition Slot_eqb (a b : Slot) : bool :=
  match a, b with
  | Slot_onTitleChanged, Slot_onTitleChanged => true
  | Slot_update, Slot_update => true
  | _, _ => false
  end.

(** [signal.connect(slot, this)]: a connection that exists is not doubled. *)
Definition connect (s : Slot) (slots : list Slot) : list Slot :=
  if existsb (Slot_eqb s) slots then slots else slots ++ [s].

Record ContentsModel : Type := mkContentsModel {
  mimetype : string;
  format : string
}.

(** Modelled from the spec: the document context.  [DocumentRegistry.Context]
    is declared in the docregistry package, outside the widget's file; the
    widget reads the path, the readiness flag, the contents model (absent
    until loaded) and the model's string content, and connects to three
    signals.  The flag [isReady] stands for the [ready] promise as well: the
    promise is fulfilled when the flag is set. *)
Record Context : Type := mkContext {
  localPath : string;
  isReady : bool;
  contentsModel : option ContentsModel;
  model_toString : string;
  pathChanged : list Slot;
  model_contentChanged : list Slot;
  fileChanged : list Slot
}.

(** Modelled from the spec: [PathExt.basename], of the coreutils package,
    returns the final segment of a path. *)
Fixpoint basename_from (p acc : string) : string :=
  match p with
  | EmptyString => acc
  | String c p' =>
      if Ascii.eqb c "/"%char then basename_from p' EmptyString
      else basename_from p' (acc ++ String c EmptyString)
  end.

Definition PathExt_basename (p : string) : string :=
  basename_from p EmptyString.

(* ================================================================= *)
(** ** The widget *)

(** Ghost record of the invocations of the private methods and of the
    resolver, newest first.  It is written by nothing but the three
    functions it names and read by no code. *)
Inductive Call : Type := Call_render | Call_updateStyle | Call_resolve.

(** Result of running a method body: normal completion, or a [TypeError]
    thrown at a [null] dereference.  Both carry the object's state. *)
Inductive Outcome (S : Type) : Type :=
| Normal (s : S)
| Thrown (s : S).
Arguments Normal {S} s.
Arguments Thrown {S} s.

Definition state_of {S : Type} (o : Outcome S) : S :=
  match o with Normal s => s | Thrown s => s end.

Definition and_then {S : Type} (o : Outcome S) (k : S -> Outcome S)
  : Outcome S :=
  match o with Normal s => k s | Thrown s => Thrown s end.

Notation "'do' w <- c ; k" := (and_then c (fun w => k))
  (at level 10, w name, c at level 100, k at level 200).

Definition IMAGE_CLASS : string := "jp-ImageViewer".

(** The fields of an [ImageViewer].  [ready_then] tells whether the reaction
    registered by [context.ready.then] is still waiting to run; [focused]
    whether [node.focus()] was called. *)
Record ImageViewer (number : Type) : Type := mkImageViewer {
  context : Context;
  node : Element;
  isDisposed : bool;
  title_label : string;
  _scale : number;
  _rotation : number;
  _horizontalflip : number;
  _verticalflip : number;
  _colorinversion : number;
  _ready : PromiseDelegate unit;
  ready_then : bool;
  focused : bool;
  history : list Call
}.
Arguments mkImageViewer {number}.
Arguments context {number} i.
Arguments node {number} i.
Arguments isDisposed {number} i.
Arguments title_label {number} i.
Arguments _scale {number} i.
Arguments _rotation {number} i.
Arguments _horizontalflip {number} i.
Arguments _verticalflip {number} i.
Arguments _colorinversion {number} i.
Arguments _ready {number} i.
Arguments ready_then {number} i.
Arguments focused {number} i.
Arguments history {number} i.

Section Widget.
Context {number : Type} {JSN : JSNumber number}.

Abbreviation Viewer := (ImageViewer number).

(** Field assignments. *)
Definition with_context (c : Context) (w : Viewer) : Viewer :=
  mkImageViewer c (node w) (isDisposed w) (title_label w) (_scale w)
    (_rotation w) (_horizontalflip w) (_verticalflip w) (_colorinversion w)
    (_ready w) (ready_then w) (focused w) (history w).
Definition with_node (n : Element) (w : Viewer) : Viewer :=
  mkImageViewer (context w) n (isDisposed w) (title_label w) (_scale w)
    (_rotation w) (_horizontalflip w) (_verticalflip w) (_colorinversion w)
    (_ready w) (ready_then w) (focused w) (history w).
Definition with_isDisposed (b : bool) (w : Viewer) : Viewer :=
  mkImageViewer (context w) (node w) b (title_label w) (_scale w)
    (_rotation w) (_horizontalflip w) (_verticalflip w) (_colorinversion w)
    (_ready w) (ready_then w) (focused w) (history w).
Definition with_title_label (t : string) (w : Viewer) : Viewer :=
  mkImageViewer (context w) (node w) (isDisposed w) t (_scale w)
    (_rotation w) (_horizontalflip w) (_verticalflip w) (_colorinversion w)
    (_ready w) (ready_then w) (focused w) (history w).
Definition with_scale (v : number) (w : Viewer) : Viewer :=
  mkImageViewer (context w) (node w) (isDisposed w) (title_label w) v
    (_rotation w) (_horizontalflip w) (_verticalflip w) (_colorinversion w)
    (_ready w) (ready_then w) (focused w) (history w).
Definition with_rotation (v : number) (w : Viewer) : Viewer :=
  mkImageViewer (context w) (node w) (isDisposed w) (title_label w) (_scale w)
    v (_horizontalflip w) (_verticalflip w) (_colorinversion w)
    (_ready w) (ready_then w) (focused w) (history w).
Definition with_horizontalflip (v : number) (w : Viewer) : Viewer :=
  mkImageViewer (context w) (node w) (isDisposed w) (title_label w) (_scale w)
    (_rotation w) v (_verticalflip w) (_colorinversion w)
    (_ready w) (ready_then w) (focused w) (history w).
Definition with_verticalflip (v : number) (w : Viewer) : Viewer :=
  mkImageViewer (context w) (node w) (isDisposed w) (title_label w) (_scale w)
    (_rotation w) (_horizontalflip w) v (_colorinversion w)
    (_ready w) (ready_then w) (focused w) (history w).
Definition with_colorinversion (v : number) (w : Viewer) : Viewer :=
  mkImageViewer (context w) (node w) (isDisposed w) (title_label w) (_scale w)
    (_rotation w) (_horizontalflip w) (_verticalflip w) v
    (_ready w) (ready_then w) (focused w) (history w).
Definition with_ready (d : PromiseDelegate unit) (w : Viewer) : Viewer :=
  mkImageViewer (context w) (node w) (isDisposed w) (title_label w) (_scale w)
    (_rotation w) (_horizontalflip w) (_verticalflip w) (_colorinversion w)
    d (ready_then w) (focused w) (history w).
Definition with_ready_then (b : bool) (w : Viewer) : Viewer :=
  mkImageViewer (context w) (node w) (isDisposed w) (title_label w) (_scale w)
    (_rotation w) (_horizontalflip w) (_verticalflip w) (_colorinversion w)
    (_ready w) b (focused w) (history w).
Definition with_focused (b : bool) (w : Viewer) : Viewer :=
  mkImageViewer (context w) (node w) (isDisposed w) (title_label w) (_scale w)
    (_rotation w) (_horizontalflip w) (_verticalflip w) (_colorinversion w)
    (_ready w) (ready_then w) b (history w).
Definition note (c : Call) (w : Viewer) : Viewer :=
  mkImageViewer (context w) (node w) (isDisposed w) (title_label w) (_scale w)
    (_rotation w) (_horizontalflip w) (_verticalflip w) (_colorinversion w)
    (_ready w) (ready_then w) (focused w) (c :: history w).

(** [get ready()]. *)
Definition ready (w : Viewer) : PromiseState unit := promise (_ready w).

(** [_onTitleChanged]. *)
Definition _onTitleChanged (w : Viewer) : Viewer :=
  with_title_label (PathExt_basename (localPath (context w))) w.

(** [_render]: nothing is done without a contents model; otherwise the data
    URI is assembled and set on the image element. *)
Definition _render (w0 : Viewer) : Outcome Viewer :=
  let w := note Call_render w0 in
  let context := context w in
  match contentsModel context with
  | None => Normal w
  | Some cm =>
      let content := model_toString context in
      let src := "data:" ++ mimetype cm ++ ";" ++ format cm ++ "," ++ content in
      match mutate_selected "img" (setAttribute "src" src) (node w) with
      | Some n => Normal (with_node n w)
      | None => Thrown w
      end
  end.

(** [updateStyle]. *)
Definition updateStyle (w0 : Viewer) : Outcome Viewer :=
  let w := note Call_updateStyle w0 in
  let transformString := "translate(-50%,-50%) " in
  let transformString :=
    transformString ++
    "scale(" ++ toString (mul (_scale w) (_horizontalflip w)) ++ "," ++
    toString (mul (_scale w) (_verticalflip w)) ++ ") " in
  let transformString :=
    transformString ++ "rotate(" ++ toString (_rotation w) ++ "deg)" in
  let filterString := "invert(" ++ toString (_colorinversion w) ++ ")" in
  match
    mutate_selected "div"
      (fun rotNode =>
         setStyle "filter" filterString
           (setStyle "transform" transformString rotNode))
      (node w)
  with
  | Some n => Normal (with_node n w)
  | None => Thrown w
  end.

(** The property setters. *)
Definition set_scale (value : number) (w : Viewer) : Outcome Viewer :=
  if strict_eq value (_scale w) then Normal w
  else updateStyle (with_scale value w).

Definition set_rotation (value : number) (w : Viewer) : Outcome Viewer :=
  if strict_eq value (_rotation w) then Normal w
  else updateStyle (with_rotation (rem value (lit 360)) w).

Definition set_horizontalflip (value : number) (w : Viewer) : Outcome Viewer :=
  if strict_eq value (_horizontalflip w) then Normal w
  else updateStyle (with_horizontalflip value w).

Definition set_verticalflip (value : number) (w : Viewer) : Outcome Viewer :=
  if strict_eq value (_verticalflip w) then Normal w
  else updateStyle (with_verticalflip value w).

Definition set_colorinversion (value : number) (w : Viewer) : Outcome Viewer :=
  if strict_eq value (_colorinversion w) then Normal w
  else updateStyle (with_colorinversion value w).

(** [onUpdateRequest]. *)
Definition onUpdateRequest (w : Viewer) : Outcome Viewer :=
  if isDisposed w || negb (isReady (context w)) then Normal w
  else _render w.

(** [onActivateRequest]. *)
Definition onActivateRequest (w : Viewer) : Viewer := with_focused true w.

(** Connecting the widget's [update] to the two change signals. *)
Definition connect_contentChanged (w : Viewer) : Viewer :=
  let c := context w in
  with_context
    (mkContext (localPath c) (isReady c) (contentsModel c) (model_toString c)
       (pathChanged c) (connect Slot_update (model_contentChanged c))
       (fileChanged c)) w.

Definition connect_fileChanged (w : Viewer) : Viewer :=
  let c := context w in
  with_context
    (mkContext (localPath c) (isReady c) (contentsModel c) (model_toString c)
       (pathChanged c) (model_contentChanged c)
       (connect Slot_update (fileChanged c))) w.

Definition connect_pathChanged (w : Viewer) : Viewer :=
  let c := context w in
  with_context
    (mkContext (localPath c) (isReady c) (contentsModel c) (model_toString c)
       (connect Slot_onTitleChanged (pathChanged c)) (model_contentChanged c)
       (fileChanged c)) w.

(** [this._ready.resolve(void 0)]. *)
Definition resolve_ready (w : Viewer) : Viewer :=
  with_ready (resolve tt (_ready w)) (note Call_resolve w).

(** The callback handed to [context.ready.then] by the constructor. *)
Definition ready_continuation (w : Viewer) : Outcome Viewer :=
  if isDisposed w then Normal w
  else
    do w1 <- _render w;
    let w2 := connect_contentChanged w1 in
    let w3 := connect_fileChanged w2 in
    Normal (resolve_ready w3).

(** The constructor, with the field initialisers of the class. *)
Definition new_ImageViewer (context : Context) : Viewer :=
  let this :=
    mkImageViewer context createNode false EmptyString
      (lit 1) (lit 0) (lit 1) (lit 1) (lit 0)
      new_PromiseDelegate false false [] in
  let this := with_node (setAttribute "tabindex" "-1" (node this)) this in
  let this := with_node (addClass IMAGE_CLASS (node this)) this in
  let this := _onTitleChanged this in
  let this := connect_pathChanged this in
  with_ready_then true this.

(* ----------------------------------------------------------------- *)
(** *** What the host can do to a widget *)

(** The calls and notifications a widget receives during its life: the five
    setters, the two messages, disposal, and what the context does (it
    becomes ready, the reaction on its [ready] promise runs, its path or its
    contents change). *)
Inductive Event : Type :=
| SetScale (v : number)
| SetRotation (v : number)
| SetHorizontalflip (v : number)
| SetVerticalflip (v : number)
| SetColorinversion (v : number)
| UpdateRequest
| ActivateRequest
| Dispose
| ContextReady
| ReadyReaction
| PathChanged (p : string)
| ContentsChanged (cm : option ContentsModel) (content : string).

(** [Widget.dispose]: the flag is set and the widget's signal connections
    are cleared.  The reaction on [context.ready] is not cancelled. *)
Definition dispose (w : Viewer) : Viewer :=
  let c := context w in
  with_isDisposed true
    (with_context
       (mkContext (localPath c) (isReady c) (contentsModel c)
          (model_toString c) [] [] []) w).

Definition context_ready (w : Viewer) : Viewer :=
  let c := context w in
  with_context
    (mkContext (localPath c) true (contentsModel c) (model_toString c)
       (pathChanged c) (model_contentChanged c) (fileChanged c)) w.

Definition context_path (p : string) (w : Viewer) : Viewer :=
  let c := context w in
  with_context
    (mkContext p (isReady c) (contentsModel c) (model_toString c)
       (pathChanged c) (model_contentChanged c) (fileChanged c)) w.

Definition context_contents (cm : option ContentsModel) (content : string)
  (w : Viewer) : Viewer :=
  let c := context w in
  with_context
    (mkContext (localPath c) (isReady c) cm content
       (pathChanged c) (model_contentChanged c) (fileChanged c)) w.

(** One event.  A promise reaction runs once, and only after the promise is
    fulfilled.  A change of contents posts an update request, which arrives
    as an [UpdateRequest] of its own. *)
Definition step (e : Event) (w : Viewer) : Outcome Viewer :=
  match e with
  | SetScale v => set_scale v w
  | SetRotation v => set_rotation v w
  | SetHorizontalflip v => set_horizontalflip v w
  | SetVerticalflip v => set_verticalflip v w
  | SetColorinversion v => set_colorinversion v w
  | UpdateRequest => onUpdateRequest w
  | ActivateRequest => Normal (onActivateRequest w)
  | Dispose => Normal (dispose w)
  | ContextReady => Normal (context_ready w)
  | ReadyReaction =>
      if isReady (context w) && ready_then w
      then ready_continuation (with_ready_then false w)
      else Normal w
  | PathChanged p =>
      let w' := context_path p w in
      if existsb (Slot_eqb Slot_onTitleChanged) (pathChanged (context w'))
      then Normal (_onTitleChanged w')
      else Normal w'
  | ContentsChanged cm content => Normal (context_contents cm content w)
  end.

(** A history of events; the event loop goes on after an uncaught error. *)
Definition run (es : list Event) (w : Viewer) : Viewer :=
  fold_left (fun w e => state_of (step e w)) es w.

End Widget.

(* ================================================================= *)
(** ** Observations *)

(** What a test would read back from the DOM. *)
Definition img_src {number : Type} (w : ImageViewer number) : option string :=
  match querySelector "img" (node w) with
  | Some image => getAttribute "src" image
  | None => None
  end.

Definition style_transform {number : Type} (w : ImageViewer number)
  : option string :=
  match querySelector "div" (node w) with
  | Some rotNode => getStyle "transform" rotNode
  | None => None
  end.

Definition style_filter {number : Type} (w : ImageViewer number)
  : option string :=
  match querySelector "div" (node w) with
  | Some rotNode => getStyle "filter" rotNode
  | None => None
  end.

(** Number of invocations of [c] recorded in a history. *)
Definition Call_eqb (a b : Call) : bool :=
  match a, b with
  | Call_render, Call_render => true
  | Call_updateStyle, Call_updateStyle => true
  | Call_resolve, Call_resolve => true
  | _, _ => false
  end.

Definition calls (c : Call) (h : list Call) : nat :=
  length (filter (Call_eqb c) h).

(** The tree built by [createNode], whatever its attributes and styles. *)
Definition viewer_node (n : Element) : Prop :=
  exists a s a1 s1 a2 s2,
    n = mkElement "div" a s [mkElement "div" a1 s1 [mkElement "img" a2 s2 []]].

(** What holds of the ready promise at every moment of a widget's life: it
    is pending and the resolver was never called, or it is fulfilled, the
    resolver was called once, right after a render, and the context is
    ready.  A reaction that has run on a pending promise ran on a disposed
    widget. *)
Definition ready_invariant {number : Type} (w : ImageViewer number) : Prop :=
  viewer_node (node w) /\
  match ready w with
  | Pending =>
      calls Call_resolve (history w) = 0 /\
      (ready_then w = false -> isDisposed w = true)
  | Fulfilled _ =>
      calls Call_resolve (history w) = 1 /\
      ready_then w = false /\
      isReady (context w) = true /\
      exists h1 h2,
        history w = (h1 ++ Call_resolve :: Call_render :: h2)%list
  | Rejected _ => False
  end.

(** The callback of the constructor as the specification describes it:
    without a test of the disposed flag. *)
Definition ready_continuation_unguarded {number : Type}
  (w : ImageViewer number) : Outcome (ImageViewer number) :=
  do w1 <- _render w;
  let w2 := connect_contentChanged w1 in
  let w3 := connect_fileChanged w2 in
  Normal (resolve_ready w3).

(** The arguments the specification expects the flip and inversion setters
    to be called with: -1 or 1 for a flip, a number between 0 and 1 for the
    inversion, [number_le] being the order of the numbers.  Nothing is asked
    of the other calls, so the scale may be any number. *)
Definition in_declared_range {number : Type} {JSN : JSNumber number}
  (number_le : number -> number -> Prop) (e : Event (number := number))
  : Prop :=
  match e with
  | SetHorizontalflip v | SetVerticalflip v => v = lit (-1)%Z \/ v = lit 1%Z
  | SetColorinversion v => number_le (lit 0%Z) v /\ number_le v (lit 1%Z)
  | _ => True
  end.

(** Sample contexts: one still loading, one loaded with a PNG. *)
Definition loading_context : Context :=
  mkContext "images/cat.png" false None "" [] [] [].

Definition png_context : Context :=
  mkContext "images/cat.png" true
    (Some (mkContentsModel "image/png" "base64")) "AAAA" [] [] [].

(* ================================================================= *)
(** ** The rest of the class *)

(** The getters of the five properties. *)
Definition scale {number : Type} (w : ImageViewer number) : number :=
  _scale w.
Definition rotation {number : Type} (w : ImageViewer number) : number :=
  _rotation w.
Definition horizontalflip {number : Type} (w : ImageViewer number) : number :=
  _horizontalflip w.
Definition verticalflip {number : Type} (w : ImageViewer number) : number :=
  _verticalflip w.
Definition colorinversion {number : Type} (w : ImageViewer number) : number :=
  _colorinversion w.

(** The strings [_render] and [updateStyle] assemble, named so that
    invariants can speak of them. *)
Definition data_uri (cm : ContentsModel) (content : string) : string :=
  "data:" ++ mimetype cm ++ ";" ++ format cm ++ "," ++ content.

Definition transform_of {number : Type} {JSN : JSNumber number}
  (w : ImageViewer number) : string :=
  "translate(-50%,-50%) " ++
  ("scale(" ++ toString (mul (_scale w) (_horizontalflip w)) ++ "," ++
               toString (mul (_scale w) (_verticalflip w)) ++ ") ") ++
  ("rotate(" ++ toString (_rotation w) ++ "deg)").

Definition filter_of {number : Type} {JSN : JSNumber number}
  (w : ImageViewer number) : string :=
  "invert(" ++ toString (_colorinversion w) ++ ")".

(** The tree of [createNode] with its attribute and style lists named. *)
Definition viewer_tree (a s a1 s1 a2 s2 : list (string * string)) : Element :=
  mkElement "div" a s [mkElement "div" a1 s1 [mkElement "img" a2 s2 []]].

(** What holds of the DOM at every moment of a widget's life.  The inner
    container carries no style and the fields hold their initial values
    until [updateStyle] is first called, and from then on it carries the
    strings of the current fields.  The image has no source until [_render]
    is first called, and a source it has is a data URI written while the
    context was ready. *)
Definition dom_invariant {number : Type} {JSN : JSNumber number}
  (w : ImageViewer number) : Prop :=
  exists a s a1 s1 a2 s2,
    node w = viewer_tree a s a1 s1 a2 s2 /\
    match calls Call_updateStyle (history w) with
    | O =>
        s1 = [] /\
        _scale w = lit 1 /\ _rotation w = lit 0 /\
        _horizontalflip w = lit 1 /\ _verticalflip w = lit 1 /\
        _colorinversion w = lit 0
    | S _ =>
        assoc_get "transform" s1 = Some (transform_of w) /\
        assoc_get "filter" s1 = Some (filter_of w)
    end /\
    (calls Call_render (history w) = O -> assoc_get "src" a2 = None) /\
    (forall u, assoc_get "src" a2 = Some u ->
               isReady (context w) = true /\
               exists cm content, u = data_uri cm content).

(** While the widget is live its title slot is connected and its title is
    the basename of the context's path. *)
Definition title_invariant {number : Type} (w : ImageViewer number) : Prop :=
  isDisposed w = false ->
  existsb (Slot_eqb Slot_onTitleChanged) (pathChanged (context w)) = true /\
  title_label w = PathExt_basename (localPath (context w)).

(** The connections of [update] a widget should have at a given moment:
    none before the ready promise is settled and none after disposal. *)
Definition expected_update_slots {number : Type} (w : ImageViewer number)
  : list Slot :=
  if isDisposed w then []
  else match ready w with
       | Pending => []
       | _ => [Slot_update]
       end.

Definition update_slots_invariant {number : Type} (w : ImageViewer number)
  : Prop :=
  model_contentChanged (context w) = expected_update_slots w /\
  fileChanged (context w) = expected_update_slots w.

(** What a disposed widget keeps for ever, relative to the moment [w0]. *)
Definition frozen_since {number : Type} (w0 w : ImageViewer number) : Prop :=
  viewer_node (node w) /\
  isDisposed w = true /\
  ready w = ready w0 /\
  img_src w = img_src w0 /\
  calls Call_render (history w) = calls Call_render (history w0) /\
  calls Call_resolve (history w) = calls Call_resolve (history w0).

(** Rotation arguments that are not negative. *)
Definition nonnegative_rotation (e : Event (number := Z)) : Prop :=
  match e with
  | SetRotation v => (0 <= v)%Z
  | _ => True
  end.

(** A widget whose tree has lost its inner container and its image. *)
Definition bare_widget : ImageViewer Z :=
  with_node (createElement "div") (new_ImageViewer png_context).

(* ================================================================= *)
(** ** The DOM traversals agree *)

Section ElementInduction.
Variable P : Element -> Prop.
Hypothesis P_element :
  forall n a s c, Forall P c -> P (mkElement n a s c).

Fixpoint Element_ind (e : Element) : P e :=
  match e with
  | mkElement n a s c =>
      P_element n a s c
        ((fix children (l : list Element) : Forall P l :=
            match l with
            | [] => Forall_nil P
            | x :: l' => Forall_cons x (Element_ind x) (children l')
            end) c)
  end.
End ElementInduction.

Section Traversals.
Context {A B : Type} (upd : A -> option A) (fnd : A -> option B)
        (g : B -> B).

Lemma update_first_none (l : list A) :
  Forall (fun a => upd a = None <-> fnd a = None) l ->
  (update_first upd l = None <-> first_some fnd l = None).
Proof.
  induction 1 as [|a l [Ha1 Ha2] _ IH]; simpl; [tauto|].
  destruct (upd a) eqn:Hu, (fnd a) eqn:Hf.
  - split; discriminate.
  - specialize (Ha2 eq_refl). discriminate.
  - specialize (Ha1 eq_refl). discriminate.
  - destruct (update_first upd l); simpl.
    + split; [discriminate|]. intros H. apply IH in H. discriminate.
    + split; [|reflexivity]. intros _. apply IH. reflexivity.
Qed.

Lemma update_first_some (l l' : list A) :
  Forall (fun a => (upd a = None <-> fnd a = None) /\
                   forall a', upd a = Some a' ->
                              fnd a' = option_map g (fnd a)) l ->
  update_first upd l = Some l' ->
  first_some fnd l' = option_map g (first_some fnd l).
Proof.
  intros HF. revert l'.
  induction HF as [|a l [[Ha1 Ha2] Ha3] _ IH]; simpl; intros l' H.
  - discriminate.
  - destruct (upd a) as [a'|] eqn:Hu.
    + injection H as <-. simpl. rewrite (Ha3 a' eq_refl).
      destruct (fnd a) eqn:Hf; [reflexivity|].
      specialize (Ha2 eq_refl). discriminate.
    + rewrite (Ha1 eq_refl).
      destruct (update_first upd l) as [l0|]; simpl in H; [|discriminate].
      injection H as <-. simpl. rewrite (Ha1 eq_refl).
      apply IH. reflexivity.
Qed.
End Traversals.

Lemma find_in_self (sel : string) (e : Element) :
  localName e = sel -> find_in sel e = Some e.
Proof.
  destruct e as [n a s c]; simpl. intros ->.
  rewrite String.eqb_refl. reflexivity.
Qed.

Lemma mutate_in_none (sel : string) (f : Element -> Element) (e : Element) :
  mutate_in sel f e = None <-> find_in sel e = None.
Proof.
  induction e as [n a s c IH] using Element_ind. simpl.
  destruct (String.eqb n sel); [split; discriminate|].
  pose proof (update_first_none (mutate_in sel f) (find_in sel) c IH) as H.
  destruct (update_first (mutate_in sel f) c); simpl.
  - split; [discriminate|]. intros H'. apply H in H'. discriminate.
  - split; [|reflexivity]. intros _. apply H. reflexivity.
Qed.

Lemma mutate_in_find (sel : string) (f : Element -> Element) :
  (forall e, localName (f e) = localName e) ->
  forall e e', mutate_in sel f e = Some e' ->
               find_in sel e' = option_map f (find_in sel e).
Proof.
  intros Hf e.
  induction e as [n a s c IH] using Element_ind. intros e' H.
  simpl in H |- *.
  destruct (String.eqb n sel) eqn:Hn.
  - injection H as <-. simpl. apply find_in_self.
    rewrite Hf. simpl. apply String.eqb_eq. exact Hn.
  - destruct (update_first (mutate_in sel f) c) as [c'|] eqn:Hc;
      simpl in H; [|discriminate].
    injection H as <-. simpl. rewrite Hn.
    apply update_first_some with (upd := mutate_in sel f); [|exact Hc].
    eapply Forall_impl; [|exact IH].
    intros x Hx. split; [apply mutate_in_none|exact Hx].
Qed.

(** [mutate_selected] fails exactly when [querySelector] returns [null]. *)
Lemma mutate_selected_none (sel : string) (f : Element -> Element)
  (root : Element) :
  mutate_selected sel f root = None <-> querySelector sel root = None.
Proof.
  destruct root as [n a s c]. unfold mutate_selected, querySelector. simpl.
  pose proof (update_first_none (mutate_in sel f) (find_in sel) c) as H.
  assert (HF : Forall (fun e => mutate_in sel f e = None <->
                                find_in sel e = None) c).
  { apply Forall_forall. intros x _. apply mutate_in_none. }
  specialize (H HF).
  destruct (update_first (mutate_in sel f) c); simpl.
  - split; [discriminate|]. intros H'. apply H in H'. discriminate.
  - split; [|reflexivity]. intros _. apply H. reflexivity.
Qed.

(** The element it mutates is the one [querySelector] returns. *)
Lemma mutate_selected_query (sel : string) (f : Element -> Element)
  (root root' : Element) :
  (forall e, localName (f e) = localName e) ->
  mutate_selected sel f root = Some root' ->
  querySelector sel root' = option_map f (querySelector sel root).
Proof.
  intros Hf. destruct root as [n a s c].
  unfold mutate_selected, querySelector. simpl.
  destruct (update_first (mutate_in sel f) c) as [c'|] eqn:Hc;
    simpl; [|discriminate].
  intros H. injection H as <-. simpl.
  apply update_first_some with (upd := mutate_in sel f); [|exact Hc].
  apply Forall_forall. intros x _.
  split; [apply mutate_in_none|apply mutate_in_find; exact Hf].
Qed.

Lemma assoc_get_set_same (k v : string) (l : list (string * string)) :
  assoc_get k (assoc_set k v l) = Some v.
Proof.
  induction l as [|[k' v'] l IH]; simpl.
  - rewrite String.eqb_refl. reflexivity.
  - destruct (String.eqb k k') eqn:E; simpl.
    + rewrite String.eqb_refl. reflexivity.
    + rewrite E. exact IH.
Qed.

Lemma assoc_get_set_other (k k' v : string) (l : list (string * string)) :
  k <> k' -> assoc_get k (assoc_set k' v l) = assoc_get k l.
Proof.
  intros Hk. apply String.eqb_neq in Hk.
  induction l as [|[k0 v0] l IH]; simpl.
  - rewrite Hk. reflexivity.
  - destruct (String.eqb k' k0) eqn:E; simpl.
    + apply String.eqb_eq in E. subst k0. rewrite Hk. reflexivity.
    + destruct (String.eqb k k0); [reflexivity|exact IH].
Qed.

(** The two queries of the widget on the tree of [createNode]. *)
Lemma viewer_node_query_div (a s a1 s1 : list (string * string))
  (c : list Element) :
  querySelector "div" (mkElement "div" a s [mkElement "div" a1 s1 c]) =
  Some (mkElement "div" a1 s1 c).
Proof. reflexivity. Qed.

Lemma viewer_node_query_img (a s a1 s1 a2 s2 : list (string * string)) :
  querySelector "img"
    (mkElement "div" a s [mkElement "div" a1 s1 [mkElement "img" a2 s2 []]]) =
  Some (mkElement "img" a2 s2 []).
Proof. reflexivity. Qed.

Lemma setAttribute_localName (name value : string) (e : Element) :
  localName (setAttribute name value e) = localName e.
Proof. destruct e. reflexivity. Qed.

Lemma setStyle_localName (prop value : string) (e : Element) :
  localName (setStyle prop value e) = localName e.
Proof. destruct e. reflexivity. Qed.

Lemma getAttribute_setAttribute (name value : string) (e : Element) :
  getAttribute name (setAttribute name value e) = Some value.
Proof. destruct e. apply assoc_get_set_same. Qed.

Lemma getStyle_setStyle (prop value : string) (e : Element) :
  getStyle prop (setStyle prop value e) = Some value.
Proof. destruct e. apply assoc_get_set_same. Qed.

Lemma getStyle_setStyle_other (prop prop' value : string) (e : Element) :
  prop <> prop' ->
  getStyle prop (setStyle prop' value e) = getStyle prop e.
Proof. intros H. destruct e. apply assoc_get_set_other. exact H. Qed.

(* ================================================================= *)
(** ** Properties that hold for every kind of number *)

Section Properties.
Context {number : Type} {JSN : JSNumber number}.
Implicit Types (w : ImageViewer number) (e : Event (number := number)).

(** An invariant of [step] holds along every history. *)
Lemma run_invariant (P : ImageViewer number -> Prop) :
  (forall e w, P w -> P (state_of (step e w))) ->
  forall es w, P w -> P (run es w).
Proof.
  intros Hstep es. unfold run.
  induction es as [|e es IH]; simpl; intros w Hw; [exact Hw|].
  apply IH. apply Hstep. exact Hw.
Qed.

(** *** What the two private methods change *)

Lemma updateStyle_state w :
  exists n, state_of (updateStyle w) = with_node n (note Call_updateStyle w).
Proof.
  unfold updateStyle.
  match goal with |- context [mutate_selected ?s ?f ?r] =>
    destruct (mutate_selected s f r) as [n|] end.
  - exists n. reflexivity.
  - exists (node w). destruct w. reflexivity.
Qed.

Lemma _render_state w :
  exists n, state_of (_render w) = with_node n (note Call_render w).
Proof.
  unfold _render. cbn [context note].
  destruct (contentsModel (context w)) as [cm|].
  - match goal with |- context [mutate_selected ?s ?f ?r] =>
      destruct (mutate_selected s f r) as [n|] end.
    + exists n. reflexivity.
    + exists (node w). destruct w. reflexivity.
  - exists (node w). destruct w. reflexivity.
Qed.

(** On the tree of [createNode] neither method throws. *)
Lemma updateStyle_normal w :
  viewer_node (node w) ->
  exists n, viewer_node n /\
            updateStyle w = Normal (with_node n (note Call_updateStyle w)).
Proof.
  intros (a & s & a1 & s1 & a2 & s2 & Hn).
  destruct w; simpl in Hn; subst.
  eexists. split; [|unfold updateStyle; cbn; reflexivity].
  repeat eexists.
Qed.

Lemma _render_normal w :
  viewer_node (node w) ->
  exists n, viewer_node n /\
            _render w = Normal (with_node n (note Call_render w)).
Proof.
  intros (a & s & a1 & s1 & a2 & s2 & Hn).
  destruct w as [c n d t sc ro hf vf ci rd rt fo hi]; simpl in Hn; subst.
  unfold _render. cbn.
  destruct (contentsModel c) as [cm|].
  - eexists. split; [|reflexivity]. repeat eexists.
  - eexists. split; [|reflexivity]. repeat eexists.
Qed.

(** *** The invariant of the ready promise *)

Lemma calls_cons_other (c d : Call) (h : list Call) :
  Call_eqb c d = false -> calls c (d :: h) = calls c h.
Proof. intros H. unfold calls. simpl. rewrite H. reflexivity. Qed.

(** Steps that leave the promise alone and record at most one call other
    than the resolver's keep the invariant. *)
Lemma ready_invariant_frame w w' :
  ready_invariant w ->
  viewer_node (node w') ->
  _ready w' = _ready w ->
  ready_then w' = ready_then w ->
  (isDisposed w = true -> isDisposed w' = true) ->
  (isReady (context w) = true -> isReady (context w') = true) ->
  (history w' = history w \/
   exists c, Call_eqb Call_resolve c = false /\ history w' = c :: history w) ->
  ready_invariant w'.
Proof.
  intros [_ Hr] Hn Hp Ht Hd Hc Hh. split; [exact Hn|].
  unfold ready in *. rewrite Hp, Ht.
  destruct (promise (_ready w)) as [|u|r]; [| |exact Hr].
  - destruct Hr as [H0 H1]. split; [|auto].
    destruct Hh as [->|(c & Hc' & ->)]; [exact H0|].
    rewrite calls_cons_other; assumption.
  - destruct Hr as (H1 & H2 & H3 & h1 & h2 & H4).
    destruct Hh as [->|(c & Hc' & ->)].
    + repeat split; auto. exists h1, h2. exact H4.
    + rewrite calls_cons_other by assumption.
      repeat split; auto. exists (c :: h1), h2. rewrite H4. reflexivity.
Qed.

Lemma new_ImageViewer_invariant (ctx : Context) :
  ready_invariant (new_ImageViewer ctx).
Proof.
  split.
  - cbn. repeat eexists.
  - cbn. split; [reflexivity|discriminate].
Qed.

Lemma step_ready_invariant e w :
  ready_invariant w -> ready_invariant (state_of (step e w)).
Proof.
  intros Hinv.
  assert (Hsetter : forall w1, node w1 = node w -> _ready w1 = _ready w ->
            ready_then w1 = ready_then w -> isDisposed w1 = isDisposed w ->
            context w1 = context w -> history w1 = history w ->
            ready_invariant (state_of (updateStyle w1))).
  { intros w1 E1 E2 E3 E4 E5 E6.
    destruct (updateStyle_normal w1) as (n & Hn & ->).
    { rewrite E1. apply Hinv. }
    apply (ready_invariant_frame w); cbn; try congruence.
    right. exists Call_updateStyle. split; [reflexivity|congruence]. }
  destruct e; cbn [step].
  - unfold set_scale. destruct (strict_eq v (_scale w)); [exact Hinv|].
    apply Hsetter; destruct w; reflexivity.
  - unfold set_rotation. destruct (strict_eq v (_rotation w)); [exact Hinv|].
    apply Hsetter; destruct w; reflexivity.
  - unfold set_horizontalflip.
    destruct (strict_eq v (_horizontalflip w)); [exact Hinv|].
    apply Hsetter; destruct w; reflexivity.
  - unfold set_verticalflip.
    destruct (strict_eq v (_verticalflip w)); [exact Hinv|].
    apply Hsetter; destruct w; reflexivity.
  - unfold set_colorinversion.
    destruct (strict_eq v (_colorinversion w)); [exact Hinv|].
    apply Hsetter; destruct w; reflexivity.
  - unfold onUpdateRequest.
    destruct (isDisposed w || negb (isReady (context w))); [exact Hinv|].
    destruct (_render_normal w) as (n & Hn & ->); [apply Hinv|].
    apply (ready_invariant_frame w); cbn; auto.
    right. exists Call_render. split; reflexivity.
  - apply (ready_invariant_frame w); cbn; auto. apply Hinv.
  - apply (ready_invariant_frame w); cbn; auto. apply Hinv.
  - apply (ready_invariant_frame w); cbn; auto. apply Hinv.
  - destruct (isReady (context w)) eqn:Hready; cbn [andb]; [|exact Hinv].
    destruct (ready_then w) eqn:Hthen; [|exact Hinv].
    destruct Hinv as [Hn Hr]. unfold ready in Hr.
    unfold ready_continuation. cbn [isDisposed with_ready_then].
    destruct (isDisposed w) eqn:Hdisp.
    + split; [exact Hn|]. unfold ready. cbn.
      destruct (promise (_ready w)) as [|u|r]; [| |exact Hr].
      * split; [apply Hr|intros _; exact Hdisp].
      * destruct Hr as (_ & Hr & _). congruence.
    + destruct (_render_normal (with_ready_then false w)) as (n & Hn' & ->);
        [exact Hn|].
      split; [exact Hn'|]. unfold ready. cbn. unfold resolve.
      destruct (promise (_ready w)) as [|u|r] eqn:Hp; [| |contradiction].
      * cbn. destruct Hr as [Hr _]. unfold calls in *. cbn. rewrite Hr.
        repeat split; auto. exists [], (history w). reflexivity.
      * destruct Hr as (_ & Hr & _). congruence.
  - cbn. destruct (existsb _ _);
      apply (ready_invariant_frame w); cbn; auto; apply Hinv.
  - apply (ready_invariant_frame w); cbn; auto. apply Hinv.
Qed.

(** Every widget the host can observe satisfies the invariant. *)
Lemma reachable_invariant (ctx : Context) (es : list Event) :
  ready_invariant (run es (new_ImageViewer ctx)).
Proof.
  apply run_invariant.
  - intros e w. apply step_ready_invariant.
  - apply new_ImageViewer_invariant.
Qed.

Lemma step_keeps_fulfilled e w :
  ready w = Fulfilled tt -> ready (state_of (step e w)) = Fulfilled tt.
Proof.
  intros Hf.
  assert (Hstyle : forall w1, _ready w1 = _ready w ->
            ready (state_of (updateStyle w1)) = Fulfilled tt).
  { intros w1 E. destruct (updateStyle_state w1) as (n & ->).
    unfold ready in *. cbn. rewrite E. exact Hf. }
  assert (Hrender : forall w1, _ready w1 = _ready w ->
            exists n, state_of (_render w1) = with_node n (note Call_render w1)
                      /\ ready (state_of (_render w1)) = Fulfilled tt).
  { intros w1 E. destruct (_render_state w1) as (n & Hn). exists n.
    split; [exact Hn|]. rewrite Hn. unfold ready in *. cbn. rewrite E.
    exact Hf. }
  destruct e; cbn [step].
  - unfold set_scale. destruct (strict_eq _ _); [exact Hf|].
    apply Hstyle. destruct w; reflexivity.
  - unfold set_rotation. destruct (strict_eq _ _); [exact Hf|].
    apply Hstyle. destruct w; reflexivity.
  - unfold set_horizontalflip. destruct (strict_eq _ _); [exact Hf|].
    apply Hstyle. destruct w; reflexivity.
  - unfold set_verticalflip. destruct (strict_eq _ _); [exact Hf|].
    apply Hstyle. destruct w; reflexivity.
  - unfold set_colorinversion. destruct (strict_eq _ _); [exact Hf|].
    apply Hstyle. destruct w; reflexivity.
  - unfold onUpdateRequest. destruct (_ || _); [exact Hf|].
    destruct (Hrender w eq_refl) as (n & _ & H). exact H.
  - exact Hf.
  - exact Hf.
  - exact Hf.
  - destruct (_ && _); [|exact Hf].
    unfold ready_continuation. cbn [isDisposed with_ready_then].
    destruct (isDisposed w); [exact Hf|].
    destruct (Hrender (with_ready_then false w) eq_refl) as (n & Hn & H).
    destruct (_render (with_ready_then false w)) as [w1|w1]; cbn in *.
    + subst w1. unfold ready in *. cbn. unfold resolve. rewrite Hf.
      exact Hf.
    + exact H.
  - cbn. destruct (existsb _ _); exact Hf.
  - exact Hf.
Qed.

Lemma run_keeps_fulfilled (es : list Event) w :
  ready w = Fulfilled tt -> ready (run es w) = Fulfilled tt.
Proof.
  apply (run_invariant (fun w => ready w = Fulfilled tt)).
  intros e w'. apply step_keeps_fulfilled.
Qed.

(* ----------------------------------------------------------------- *)
(** *** Rendering *)

(** C9.  When the context has no contents model a render is skipped as a
    whole: [_render] completes normally (no error is raised), and the widget
    it leaves differs from the one it found by the record of the call only:
    the DOM tree, hence the [src] attribute of the image, is untouched. *)
Theorem render_skipped_without_contents_model w :
  contentsModel (context w) = None ->
  _render w = Normal (note Call_render w) /\
  node (state_of (_render w)) = node w /\
  img_src (state_of (_render w)) = img_src w.
Proof.
  intros H. unfold _render. cbn [context note]. rewrite H.
  repeat split.
Qed.

(** With a contents model, [_render] succeeds exactly when the tree has an
    image element, whose [src] it sets; without one it throws. *)
Lemma _render_sets_src w (cm : ContentsModel) (image : Element) :
  contentsModel (context w) = Some cm ->
  querySelector "img" (node w) = Some image ->
  exists w',
    _render w = Normal w' /\
    img_src w' =
      Some ("data:" ++ mimetype cm ++ ";" ++ format cm ++ "," ++
            model_toString (context w)).
Proof.
  intros Hcm Himg. unfold _render. cbn [context note node]. rewrite Hcm.
  match goal with |- context [mutate_selected ?s ?f ?r] =>
    destruct (mutate_selected s f r) as [n|] eqn:Hm end.
  - eexists. split; [reflexivity|].
    unfold img_src. cbn [node with_node].
    rewrite (mutate_selected_query _ _ _ _ (setAttribute_localName _ _) Hm).
    rewrite Himg. cbn [option_map]. apply getAttribute_setAttribute.
  - apply mutate_selected_none in Hm. congruence.
Qed.

Lemma _render_throws_without_image w (cm : ContentsModel) :
  contentsModel (context w) = Some cm ->
  querySelector "img" (node w) = None ->
  _render w = Thrown (note Call_render w).
Proof.
  intros Hcm Himg. unfold _render. cbn [context note node]. rewrite Hcm.
  match goal with |- context [mutate_selected ?s ?f ?r] =>
    destruct (mutate_selected s f r) as [n|] eqn:Hm end; [|reflexivity].
  assert (H : mutate_selected "img"
                (setAttribute "src"
                   ("data:" ++ mimetype cm ++ ";" ++ format cm ++ "," ++
                    model_toString (context w))) (node w) = None)
    by (apply mutate_selected_none; exact Himg).
  congruence.
Qed.

(** C4.  At every moment of a widget's life, if the context has a contents
    model with mimetype [m] and format [f] and the model's string is [c], a
    render completes and leaves the [src] attribute of the image element
    equal to ["data:" ++ m ++ ";" ++ f ++ "," ++ c]. *)
Theorem render_sets_data_uri (ctx : Context) (es : list Event)
  (cm : ContentsModel) :
  let w := run es (new_ImageViewer ctx) in
  contentsModel (context w) = Some cm ->
  exists w',
    _render w = Normal w' /\
    img_src w' =
      Some ("data:" ++ mimetype cm ++ ";" ++ format cm ++ "," ++
            model_toString (context w)).
Proof.
  intros w Hcm.
  destruct (reachable_invariant ctx es) as [Hn _]. fold w in Hn.
  destruct Hn as (a & s & a1 & s1 & a2 & s2 & Hn).
  apply (_render_sets_src w cm (mkElement "img" a2 s2 [])); [exact Hcm|].
  rewrite Hn. apply viewer_node_query_img.
Qed.

(* ----------------------------------------------------------------- *)
(** *** The update request *)

(** C7.  An update request on a disposed widget, or on one whose context is
    not ready, completes normally and returns the widget as it was: no
    [_render] call is recorded and no field has changed.  On a live widget
    with a ready context it is the rendering algorithm. *)
Theorem update_request_guard w :
  (isDisposed w = true \/ isReady (context w) = false ->
   onUpdateRequest w = Normal w) /\
  (isDisposed w = false -> isReady (context w) = true ->
   onUpdateRequest w = _render w).
Proof.
  unfold onUpdateRequest. split.
  - intros [-> | ->]; [reflexivity|].
    destruct (isDisposed w); reflexivity.
  - intros -> ->. reflexivity.
Qed.

(* ----------------------------------------------------------------- *)
(** *** The setters *)

(** C6.  Each of the five setters, called with a value that is [===] to the
    stored one, completes normally and returns the widget as it was: the
    stored field, the style strings and the record of [updateStyle] calls
    are those of before. *)
Theorem setter_same_value_is_noop w :
  (forall v, strict_eq v (_scale w) = true -> set_scale v w = Normal w) /\
  (forall v, strict_eq v (_rotation w) = true ->
             set_rotation v w = Normal w) /\
  (forall v, strict_eq v (_horizontalflip w) = true ->
             set_horizontalflip v w = Normal w) /\
  (forall v, strict_eq v (_verticalflip w) = true ->
             set_verticalflip v w = Normal w) /\
  (forall v, strict_eq v (_colorinversion w) = true ->
             set_colorinversion v w = Normal w).
Proof.
  unfold set_scale, set_rotation, set_horizontalflip, set_verticalflip,
    set_colorinversion.
  repeat split; intros v ->; reflexivity.
Qed.

(* ----------------------------------------------------------------- *)
(** *** Disposal *)

(** C3 (as the code has it).  The callback scheduled by the constructor
    tests the disposed flag first: on a disposed widget it completes
    normally and returns the widget as it was, without rendering,
    connecting to a signal or resolving the ready promise.  The update
    request is guarded in the same way. *)
Theorem disposed_widget_is_left_alone w :
  isDisposed w = true ->
  ready_continuation w = Normal w /\ onUpdateRequest w = Normal w.
Proof.
  intros H. unfold ready_continuation, onUpdateRequest. rewrite H.
  split; reflexivity.
Qed.

(* ----------------------------------------------------------------- *)
(** *** Style recomputation *)

(** [updateStyle] succeeds exactly when the tree has an inner [div], on
    which it writes the two strings below; without one it throws. *)
Lemma updateStyle_writes_styles w (rotNode : Element) :
  querySelector "div" (node w) = Some rotNode ->
  exists w',
    updateStyle w = Normal w' /\
    style_transform w' =
      Some ("translate(-50%,-50%) " ++
            ("scale(" ++ toString (mul (_scale w) (_horizontalflip w)) ++ "," ++
                         toString (mul (_scale w) (_verticalflip w)) ++ ") ") ++
            ("rotate(" ++ toString (_rotation w) ++ "deg)")) /\
    style_filter w' = Some ("invert(" ++ toString (_colorinversion w) ++ ")").
Proof.
  intros Hdiv. unfold updateStyle.
  cbn [node note _scale _rotation _horizontalflip _verticalflip
       _colorinversion].
  match goal with |- context [mutate_selected ?s ?f ?r] =>
    assert (Hf : forall x, localName (f x) = localName x)
      by (intros x; rewrite !setStyle_localName; reflexivity);
    destruct (mutate_selected s f r) as [n|] eqn:Hm end.
  - eexists. split; [reflexivity|].
    unfold style_transform, style_filter. cbn [node with_node].
    rewrite (mutate_selected_query _ _ _ _ Hf Hm).
    rewrite Hdiv. cbn [option_map]. split.
    + rewrite getStyle_setStyle_other by discriminate.
      rewrite getStyle_setStyle. reflexivity.
    + apply getStyle_setStyle.
  - apply mutate_selected_none in Hm. congruence.
Qed.

Lemma updateStyle_throws_without_div w :
  querySelector "div" (node w) = None ->
  updateStyle w = Thrown (note Call_updateStyle w).
Proof.
  intros Hdiv. unfold updateStyle. cbn [node note].
  match goal with |- context [mutate_selected ?s ?f ?r] =>
    destruct (mutate_selected s f r) as [n|] eqn:Hm;
    [assert (H : mutate_selected s f r = None)
       by (apply mutate_selected_none; exact Hdiv); congruence
    |reflexivity] end.
Qed.

(** At every moment of a widget's life the inner [div] is there. *)
Lemma updateStyle_strings (ctx : Context) (es : list Event) :
  let w := run es (new_ImageViewer ctx) in
  exists w',
    updateStyle w = Normal w' /\
    style_transform w' =
      Some ("translate(-50%,-50%) " ++
            ("scale(" ++ toString (mul (_scale w) (_horizontalflip w)) ++ "," ++
                         toString (mul (_scale w) (_verticalflip w)) ++ ") ") ++
            ("rotate(" ++ toString (_rotation w) ++ "deg)")) /\
    style_filter w' = Some ("invert(" ++ toString (_colorinversion w) ++ ")").
Proof.
  intros w.
  destruct (reachable_invariant ctx es) as [Hn _]. fold w in Hn.
  destruct Hn as (a & s & a1 & s1 & a2 & s2 & Hn).
  apply (updateStyle_writes_styles w
           (mkElement "div" a1 s1 [mkElement "img" a2 s2 []])).
  rewrite Hn. apply viewer_node_query_div.
Qed.

(* ----------------------------------------------------------------- *)
(** *** The ready promise *)

(** C8.  Along every history of a widget: the ready promise is never
    rejected; the resolver is called at most once, and the promise is
    fulfilled (with no value) exactly when it has been called; when it is
    fulfilled the context is ready and the resolver's call came right after
    a completed [_render]; once fulfilled it stays so, whatever happens
    next, and the accessor, which only reads the promise, shows the same
    completion at every later access; and on a live widget with a ready
    context the promise is fulfilled as soon as the reaction has had its
    turn. *)
Theorem ready_promise_resolves_once (ctx : Context) (es : list Event) :
  let w := run es (new_ImageViewer ctx) in
  (forall r, ready w <> Rejected r) /\
  calls Call_resolve (history w) <= 1 /\
  (ready w = Fulfilled tt <-> calls Call_resolve (history w) = 1) /\
  (ready w = Pending <-> calls Call_resolve (history w) = 0) /\
  (ready w = Fulfilled tt ->
   isReady (context w) = true /\
   exists h1 h2,
     history w = (h1 ++ Call_resolve :: Call_render :: h2)%list) /\
  (forall es', ready w = Fulfilled tt -> ready (run es' w) = Fulfilled tt) /\
  (isDisposed w = false -> isReady (context w) = true ->
   ready (run [ReadyReaction] w) = Fulfilled tt).
Proof.
  intros w.
  pose proof (reachable_invariant ctx es) as Hinv. fold w in Hinv.
  clearbody w. destruct Hinv as [Hn Hr].
  repeat match goal with |- _ /\ _ => split end.
  - intros r Hrej. rewrite Hrej in Hr. exact Hr.
  - destruct (ready w) as [|u|r]; [| |contradiction].
    + destruct Hr as [-> _]. auto.
    + destruct Hr as [-> _]. auto.
  - destruct (ready w) as [|u|r]; [| |contradiction].
    + destruct Hr as [-> _]. split; discriminate.
    + destruct Hr as [-> _]. destruct u. split; reflexivity.
  - destruct (ready w) as [|u|r]; [| |contradiction].
    + destruct Hr as [-> _]. split; reflexivity.
    + destruct Hr as [-> _]. split; discriminate.
  - intros Hf. rewrite Hf in Hr.
    destruct Hr as (_ & _ & Hc & Hh). split; assumption.
  - intros es' Hf. apply run_keeps_fulfilled. exact Hf.
  - intros Hd Hc. unfold run. cbn [fold_left step]. rewrite Hc. cbn [andb].
    destruct (ready_then w) eqn:Ht.
    + unfold ready_continuation. cbn [isDisposed with_ready_then]. rewrite Hd.
      destruct (_render_normal (with_ready_then false w)) as (n & _ & ->);
        [exact Hn|].
      unfold ready in *. cbn. unfold resolve.
      destruct (promise (_ready w)) as [|u|r]; [reflexivity| |contradiction].
      destruct Hr as (_ & Hr & _). discriminate.
    + cbn. destruct (ready w) as [|u|r]; [| |contradiction].
      * destruct Hr as [_ Hr]. specialize (Hr eq_refl). congruence.
      * destruct u. reflexivity.
Qed.

(* ----------------------------------------------------------------- *)
(** *** The numeric fields along a history *)

(** Only a setter writes a numeric field, and only its own. *)
Lemma step_fields e w :
  let w' := state_of (step e w) in
  _scale w' =
    match e with
    | SetScale v => if strict_eq v (_scale w) then _scale w else v
    | _ => _scale w
    end /\
  _rotation w' =
    match e with
    | SetRotation v =>
        if strict_eq v (_rotation w) then _rotation w else rem v (lit 360)
    | _ => _rotation w
    end /\
  _horizontalflip w' =
    match e with
    | SetHorizontalflip v =>
        if strict_eq v (_horizontalflip w) then _horizontalflip w else v
    | _ => _horizontalflip w
    end /\
  _verticalflip w' =
    match e with
    | SetVerticalflip v =>
        if strict_eq v (_verticalflip w) then _verticalflip w else v
    | _ => _verticalflip w
    end /\
  _colorinversion w' =
    match e with
    | SetColorinversion v =>
        if strict_eq v (_colorinversion w) then _colorinversion w else v
    | _ => _colorinversion w
    end.
Proof.
  destruct e; cbn [step]; cbv zeta.
  - unfold set_scale. destruct (strict_eq _ _); [repeat split|].
    destruct (updateStyle_state (with_scale v w)) as (n & ->). repeat split.
  - unfold set_rotation. destruct (strict_eq _ _); [repeat split|].
    destruct (updateStyle_state (with_rotation (rem v (lit 360)) w))
      as (n & ->). repeat split.
  - unfold set_horizontalflip. destruct (strict_eq _ _); [repeat split|].
    destruct (updateStyle_state (with_horizontalflip v w)) as (n & ->).
    repeat split.
  - unfold set_verticalflip. destruct (strict_eq _ _); [repeat split|].
    destruct (updateStyle_state (with_verticalflip v w)) as (n & ->).
    repeat split.
  - unfold set_colorinversion. destruct (strict_eq _ _); [repeat split|].
    destruct (updateStyle_state (with_colorinversion v w)) as (n & ->).
    repeat split.
  - unfold onUpdateRequest. destruct (_ || _); [repeat split|].
    destruct (_render_state w) as (n & ->). repeat split.
  - repeat split.
  - repeat split.
  - repeat split.
  - destruct (_ && _); [|repeat split].
    unfold ready_continuation. cbn [isDisposed with_ready_then].
    destruct (isDisposed w); [repeat split|].
    destruct (_render_state (with_ready_then false w)) as (n & Hn).
    destruct (_render (with_ready_then false w)) as [w1|w1];
      cbn in Hn |- *; subst w1; repeat split.
  - cbn. destruct (existsb _ _); repeat split.
  - repeat split.
Qed.

End Properties.

(* ================================================================= *)
(** ** Integer-valued properties *)

Local Open Scope Z_scope.

Lemma rem_360_small (x : Z) : -360 < x < 360 -> Z.rem x 360 = x.
Proof. intros H. Z.to_euclidean_division_equations. lia. Qed.

Lemma rem_360_bound (x : Z) : -360 < Z.rem x 360 < 360.
Proof. Z.to_euclidean_division_equations. lia. Qed.

Lemma rem_360_sign (x : Z) : x < 0 -> Z.rem x 360 <= 0.
Proof. intros H. Z.to_euclidean_division_equations. lia. Qed.

(** The stored rotation is always strictly between -360 and 360. *)
Lemma rotation_bound (ctx : Context) (es : list (Event (number := Z))) :
  -360 < _rotation (run es (new_ImageViewer ctx)) < 360.
Proof.
  apply (run_invariant (fun w => -360 < _rotation w < 360)).
  - intros e w H. destruct (step_fields e w) as (_ & -> & _).
    destruct e; try exact H. cbn.
    destruct (v =? _rotation w); [exact H|apply rem_360_bound].
  - cbn. lia.
Qed.

(** C1 (as the code has it).  At every moment of a widget's life, after the
    rotation setter is called with an integer [x] the stored rotation is the
    truncated remainder of [x] by 360: it lies strictly between -360 and
    360 and carries the sign of [x].  For [x >= 0] it is [x mod 360], in
    the range [0,360); for negative [x] it is not positive. *)
Theorem rotation_setter_stores_remainder (ctx : Context)
  (es : list (Event (number := Z))) (x : Z) :
  let w := state_of (set_rotation x (run es (new_ImageViewer ctx))) in
  _rotation w = Z.rem x 360 /\
  -360 < _rotation w < 360 /\
  (0 <= x -> _rotation w = x mod 360 /\ 0 <= _rotation w < 360) /\
  (x < 0 -> -360 < _rotation w <= 0).
Proof.
  intros w.
  assert (Hrem : _rotation w = Z.rem x 360).
  { subst w. pose proof (rotation_bound ctx es) as Hb.
    destruct (step_fields (SetRotation x) (run es (new_ImageViewer ctx)))
      as (_ & H & _).
    cbn [step] in H. rewrite H. cbn.
    destruct (x =? _rotation (run es (new_ImageViewer ctx))) eqn:E;
      [|reflexivity].
    apply Z.eqb_eq in E. rewrite <- E in *. symmetry. apply rem_360_small.
    exact Hb. }
  rewrite Hrem. split; [reflexivity|]. split; [apply rem_360_bound|]. split.
  - intros Hx. rewrite Z.rem_mod_nonneg by lia.
    split; [reflexivity|]. apply Z.mod_pos_bound. lia.
  - intros Hx. pose proof (rem_360_bound x). pose proof (rem_360_sign x Hx).
    lia.
Qed.

(** C2 (as the code has it).  The rotation setter compares its argument
    with the stored rotation before it normalises: called with the stored
    value it returns the widget as it was; called with any other value,
    congruent modulo 360 or not, it stores the remainder by 360 and
    recomputes the style. *)
Theorem rotation_setter_compares_before_normalising
  (w : ImageViewer Z) (v : Z) :
  (v = _rotation w -> set_rotation v w = Normal w) /\
  (v <> _rotation w ->
   _rotation (state_of (set_rotation v w)) = Z.rem v 360 /\
   history (state_of (set_rotation v w)) = Call_updateStyle :: history w).
Proof.
  unfold set_rotation. cbn [strict_eq Z_number rem lit]. split.
  - intros ->. rewrite Z.eqb_refl. reflexivity.
  - intros Hv. apply Z.eqb_neq in Hv. rewrite Hv.
    destruct (updateStyle_state (with_rotation (Z.rem v 360) w)) as (n & ->).
    split; reflexivity.
Qed.

(** Values in the declared ranges stay there as long as the setters are
    called with such values, whatever the numbers and their order are. *)
Lemma declared_range_run {number : Type} {JSN : JSNumber number}
  (number_le : number -> number -> Prop)
  (es : list (Event (number := number))) (w : ImageViewer number) :
  Forall (in_declared_range number_le) es ->
  (_horizontalflip w = lit (-1) \/ _horizontalflip w = lit 1) /\
  (_verticalflip w = lit (-1) \/ _verticalflip w = lit 1) /\
  (number_le (lit 0) (_colorinversion w) /\
   number_le (_colorinversion w) (lit 1)) ->
  (_horizontalflip (run es w) = lit (-1) \/
   _horizontalflip (run es w) = lit 1) /\
  (_verticalflip (run es w) = lit (-1) \/ _verticalflip (run es w) = lit 1) /\
  (number_le (lit 0) (_colorinversion (run es w)) /\
   number_le (_colorinversion (run es w)) (lit 1)).
Proof.
  intros HF. revert w.
  induction HF as [|e es He _ IH]; intros w Hw; [exact Hw|].
  change (run (e :: es) w) with (run es (state_of (step e w))).
  apply IH.
  destruct (step_fields e w) as (_ & _ & -> & -> & ->).
  destruct Hw as (Hh & Hv & Hc).
  destruct e; cbn in He; auto;
    match goal with |- context [strict_eq ?a ?b] =>
      destruct (strict_eq a b) end; auto.
Qed.

(** C10 (as the code has it).  The setters store what they are given.  For
    numbers of any kind, integers or fractions, with their order: as long
    as the flip setters are called with -1 or 1 and the inversion setter
    with a value between 0 and 1, the stored flips are -1 or 1 and the
    stored inversion is between 0 and 1, at every moment of a widget's
    life, whatever the other calls (a scale of any value among them) are.
    All that is asked of the order is that 0 is between 0 and 1. *)
Theorem flips_and_inversion_stay_in_range {number : Type}
  {JSN : JSNumber number} (number_le : number -> number -> Prop)
  (ctx : Context) (es : list (Event (number := number))) :
  number_le (lit 0) (lit 0) ->
  number_le (lit 0) (lit 1) ->
  Forall (in_declared_range number_le) es ->
  let w := run es (new_ImageViewer ctx) in
  (_horizontalflip w = lit (-1) \/ _horizontalflip w = lit 1) /\
  (_verticalflip w = lit (-1) \/ _verticalflip w = lit 1) /\
  (number_le (lit 0) (_colorinversion w) /\
   number_le (_colorinversion w) (lit 1)).
Proof.
  intros H00 H01 HF w. subst w.
  apply (declared_range_run number_le); [exact HF|].
  cbn. auto.
Qed.

(** C5.  Whatever the five numeric fields hold, [updateStyle] completes and
    writes on the inner container a transform made of the centring
    translation, then a scale by [scale * horizontalflip] and
    [scale * verticalflip], then a rotation by the stored degrees, and a
    filter [invert(colorinversion)].  After [scale = 2] and
    [horizontalflip = -1] on a new widget the factors are -2 and 2. *)
Theorem style_recomputation_composition :
  (forall (number : Type) (JSN : JSNumber number) (ctx : Context)
          (es : list (Event (number := number))),
     let w := run es (new_ImageViewer ctx) in
     exists w',
       updateStyle w = Normal w' /\
       style_transform w' =
         Some ("translate(-50%,-50%) " ++
               ("scale(" ++ toString (mul (_scale w) (_horizontalflip w)) ++
                "," ++ toString (mul (_scale w) (_verticalflip w)) ++ ") ") ++
               ("rotate(" ++ toString (_rotation w) ++ "deg)"))%string /\
       style_filter w' =
         Some ("invert(" ++ toString (_colorinversion w) ++ ")")%string) /\
  (forall ctx : Context,
     let w := run [SetScale 2; SetHorizontalflip (-1)] (new_ImageViewer ctx) in
     style_transform w =
       Some "translate(-50%,-50%) scale(-2,2) rotate(0deg)"%string /\
     style_filter w = Some "invert(0)"%string /\
     mul (_scale w) (_horizontalflip w) = -2 /\
     mul (_scale w) (_verticalflip w) = 2).
Proof.
  split.
  - intros number JSN ctx es. apply updateStyle_strings.
  - intros ctx. repeat split.
Qed.

(* ================================================================= *)
(** ** Where the code departs from the specification *)

(** C1, as stated, fails for a negative argument: the setter called with
    -10 on a new widget stores -10, whereas [-10 mod 360] is 350; the
    stored value is outside the range [0,360). *)
Lemma rotation_setter_negative_counterexample :
  let w := state_of (set_rotation (-10) (new_ImageViewer loading_context)) in
  _rotation w = -10 /\
  (-10) mod 360 = 350 /\
  _rotation w <> (-10) mod 360 /\
  ~ (0 <= _rotation w < 360).
Proof.
  cbv zeta. repeat split.
  - intros H. vm_compute in H. discriminate H.
  - intros [H _]. vm_compute in H. apply H. reflexivity.
Qed.

(** C2, as stated, fails: the comparison is made on the argument as given.
    On a new widget (rotation 0) the setter called with 360 is not a no-op:
    it calls [updateStyle], which writes the transform.  And after the
    rotation was set to -10, the setter called with the congruent value 350
    replaces the stored -10 by 350 and rewrites the transform. *)
Lemma rotation_setter_congruent_counterexample :
  let w0 := new_ImageViewer (number := Z) loading_context in
  let w1 := state_of (set_rotation (-10) w0) in
  ((360 - _rotation w0) mod 360 = 0 /\
   set_rotation 360 w0 <> Normal w0 /\
   history w0 = [] /\
   history (state_of (set_rotation 360 w0)) = [Call_updateStyle] /\
   style_transform w0 = None /\
   style_transform (state_of (set_rotation 360 w0)) =
     Some "translate(-50%,-50%) scale(1,1) rotate(0deg)"%string) /\
  ((350 - _rotation w1) mod 360 = 0 /\
   _rotation w1 = -10 /\
   _rotation (state_of (set_rotation 350 w1)) = 350 /\
   style_transform w1 =
     Some "translate(-50%,-50%) scale(1,1) rotate(-10deg)"%string /\
   style_transform (state_of (set_rotation 350 w1)) =
     Some "translate(-50%,-50%) scale(1,1) rotate(350deg)"%string).
Proof.
  cbv zeta. repeat split.
  intros H.
  apply (f_equal (fun o => history (state_of o))) in H.
  vm_compute in H. discriminate H.
Qed.

(** C3, as stated, fails: the callback does test the disposed flag.  On a
    widget disposed while its context (loaded, with a PNG) was pending, the
    callback returns the widget as it was, where a callback without the
    test would have rendered, connected and resolved. *)
Lemma ready_continuation_guard_counterexample :
  let w := dispose (new_ImageViewer (number := Z) png_context) in
  isDisposed w = true /\
  ready_continuation w = Normal w /\
  ready (state_of (ready_continuation w)) = Pending /\
  img_src (state_of (ready_continuation w)) = None /\
  ready (state_of (ready_continuation_unguarded w)) = Fulfilled tt /\
  img_src (state_of (ready_continuation_unguarded w)) =
    Some "data:image/png;base64,AAAA"%string /\
  ready_continuation w <> ready_continuation_unguarded w.
Proof.
  cbv zeta. repeat split.
  intros H.
  apply (f_equal (fun o => history (state_of o))) in H.
  vm_compute in H. discriminate H.
Qed.

(** C10, as stated, fails: the setters do not validate.  A horizontal flip
    of 2 and a colour inversion of 5 are stored as given. *)
Lemma flip_and_inversion_range_counterexample :
  let w := run [SetHorizontalflip 2; SetColorinversion 5]
               (new_ImageViewer loading_context) in
  _horizontalflip w = 2 /\
  ~ (_horizontalflip w = -1 \/ _horizontalflip w = 1) /\
  _colorinversion w = 5 /\
  ~ (0 <= _colorinversion w <= 1).
Proof.
  cbv zeta. repeat split.
  - intros [H|H]; vm_compute in H; discriminate H.
  - intros [_ H]. vm_compute in H. apply H. reflexivity.
Qed.

(* ================================================================= *)
(** ** Instances *)

(** The rotation setter called with 400 on a new widget stores 40. *)
Lemma rotation_setter_stores_remainder_witness :
  let w := state_of (set_rotation 400 (new_ImageViewer loading_context)) in
  0 <= 400 /\ _rotation w = 40 /\ 0 <= _rotation w < 360.
Proof.
  cbv zeta.
  destruct (rotation_setter_stores_remainder loading_context [] 400)
    as (_ & _ & H & _).
  split; [lia|]. apply H. lia.
Defined.

(** On a new widget the rotation setter called with 0 does nothing; called
    with 360 it stores 0 again and calls [updateStyle]. *)
Lemma rotation_setter_compares_before_normalising_witness :
  let w := new_ImageViewer (number := Z) loading_context in
  (0 = _rotation w /\ set_rotation 0 w = Normal w) /\
  (360 <> _rotation w /\
   _rotation (state_of (set_rotation 360 w)) = 0 /\
   history (state_of (set_rotation 360 w)) = [Call_updateStyle]).
Proof.
  cbv zeta. split.
  - split; [reflexivity|].
    apply (proj1 (rotation_setter_compares_before_normalising
                    (new_ImageViewer loading_context) 0)).
    reflexivity.
  - split; [discriminate|].
    apply (proj2 (rotation_setter_compares_before_normalising
                    (new_ImageViewer loading_context) 360)).
    discriminate.
Defined.

(** A widget disposed before its context was ready. *)
Lemma disposed_widget_is_left_alone_witness :
  let w := dispose (new_ImageViewer (number := Z) png_context) in
  isDisposed w = true /\
  ready_continuation w = Normal w /\ onUpdateRequest w = Normal w.
Proof.
  cbv zeta. split; [reflexivity|].
  apply (disposed_widget_is_left_alone
           (dispose (new_ImageViewer (number := Z) png_context))).
  reflexivity.
Defined.

(** A PNG in base64 with content [AAAA]. *)
Lemma render_sets_data_uri_witness :
  let w := new_ImageViewer (number := Z) png_context in
  contentsModel (context w) = Some (mkContentsModel "image/png" "base64") /\
  exists w',
    _render w = Normal w' /\
    img_src w' = Some "data:image/png;base64,AAAA"%string.
Proof.
  cbv zeta. split; [reflexivity|].
  apply (render_sets_data_uri (number := Z) png_context []
           (mkContentsModel "image/png" "base64")).
  reflexivity.
Defined.

(** The five setters called with the initial values on a new widget. *)
Lemma setter_same_value_is_noop_witness :
  let w := new_ImageViewer (number := Z) loading_context in
  set_scale 1 w = Normal w /\
  set_rotation 0 w = Normal w /\
  set_horizontalflip 1 w = Normal w /\
  set_verticalflip 1 w = Normal w /\
  set_colorinversion 0 w = Normal w.
Proof.
  cbv zeta.
  destruct (setter_same_value_is_noop
              (new_ImageViewer (number := Z) loading_context))
    as (H1 & H2 & H3 & H4 & H5).
  split; [apply H1; reflexivity|].
  split; [apply H2; reflexivity|].
  split; [apply H3; reflexivity|].
  split; [apply H4; reflexivity|].
  apply H5; reflexivity.
Defined.

(** An update request before the context is ready, and one after. *)
Lemma update_request_guard_witness :
  let w := new_ImageViewer (number := Z) loading_context in
  let w' := run [ContextReady] (new_ImageViewer (number := Z) png_context) in
  (isReady (context w) = false /\ onUpdateRequest w = Normal w) /\
  (isDisposed w' = false /\ isReady (context w') = true /\
   onUpdateRequest w' = _render w').
Proof.
  cbv zeta. split.
  - split; [reflexivity|].
    apply (proj1 (update_request_guard
                    (new_ImageViewer (number := Z) loading_context))).
    right. reflexivity.
  - split; [reflexivity|]. split; [reflexivity|].
    apply (proj2 (update_request_guard
                    (run [ContextReady]
                       (new_ImageViewer (number := Z) png_context))));
      reflexivity.
Defined.

(** The context becomes ready, then the reaction runs. *)
Lemma ready_promise_resolves_once_witness :
  let w := run [ContextReady] (new_ImageViewer (number := Z) png_context) in
  isDisposed w = false /\ isReady (context w) = true /\
  ready w = Pending /\
  ready (run [ReadyReaction] w) = Fulfilled tt.
Proof.
  cbv zeta.
  destruct (ready_promise_resolves_once (number := Z) png_context
              [ContextReady]) as (_ & _ & _ & _ & _ & _ & H).
  split; [reflexivity|]. split; [reflexivity|]. split; [reflexivity|].
  apply H; reflexivity.
Defined.

(** A render while the context is still loading. *)
Lemma render_skipped_without_contents_model_witness :
  let w := new_ImageViewer (number := Z) loading_context in
  contentsModel (context w) = None /\
  _render w = Normal (note Call_render w) /\
  node (state_of (_render w)) = node w /\
  img_src (state_of (_render w)) = img_src w.
Proof.
  cbv zeta. split; [reflexivity|].
  apply (render_skipped_without_contents_model
           (new_ImageViewer (number := Z) loading_context)).
  reflexivity.
Defined.

(** A mirror, a full inversion and a zoom. *)
Lemma flips_and_inversion_stay_in_range_witness :
  let es := [SetHorizontalflip (-1); SetColorinversion 1; SetScale 3] in
  let w := run es (new_ImageViewer loading_context) in
  (0 <= 0 /\ 0 <= 1) /\
  Forall (in_declared_range Z.le) es /\
  (_horizontalflip w = -1 \/ _horizontalflip w = 1) /\
  (_verticalflip w = -1 \/ _verticalflip w = 1) /\
  0 <= _colorinversion w <= 1.
Proof.
  cbv zeta.
  assert (H00 : 0 <= 0) by lia.
  assert (H01 : 0 <= 1) by lia.
  assert (H : Forall (in_declared_range (JSN := Z_number) Z.le)
                [SetHorizontalflip (-1); SetColorinversion 1; SetScale 3]).
  { repeat constructor; cbn; lia. }
  split; [split; assumption|]. split; [exact H|].
  apply (flips_and_inversion_stay_in_range (JSN := Z_number) Z.le
           loading_context _ H00 H01 H).
Defined.

(* ================================================================= *)
(** ** The widget over its whole life *)

Local Close Scope Z_scope.

Lemma assoc_set_set (k v : string) (l : list (string * string)) :
  assoc_set k v (assoc_set k v l) = assoc_set k v l.
Proof.
  induction l as [|[k' v'] l IH]; simpl.
  - rewrite String.eqb_refl. reflexivity.
  - destruct (String.eqb k k') eqn:E; simpl.
    + rewrite String.eqb_refl. reflexivity.
    + rewrite E, IH. reflexivity.
Qed.

Lemma calls_cons_same (c : Call) (h : list Call) :
  calls c (c :: h) = S (calls c h).
Proof. unfold calls. simpl. destruct c; reflexivity. Qed.

Section Lifetime.
Context {number : Type} {JSN : JSNumber number}.
Implicit Types (w : ImageViewer number) (e : Event (number := number)).

(** *** The two private methods on the tree of [createNode] *)

Lemma updateStyle_tree w (a s a1 s1 a2 s2 : list (string * string)) :
  node w = viewer_tree a s a1 s1 a2 s2 ->
  updateStyle w =
  Normal
    (with_node
       (viewer_tree a s a1
          (assoc_set "filter" (filter_of w)
             (assoc_set "transform" (transform_of w) s1)) a2 s2)
       (note Call_updateStyle w)).
Proof.
  intros H. unfold updateStyle. cbn [node note]. rewrite H. reflexivity.
Qed.

Lemma _render_tree w (a s a1 s1 a2 s2 : list (string * string)) :
  node w = viewer_tree a s a1 s1 a2 s2 ->
  _render w =
  Normal
    match contentsModel (context w) with
    | None => note Call_render w
    | Some cm =>
        with_node
          (viewer_tree a s a1 s1
             (assoc_set "src" (data_uri cm (model_toString (context w))) a2)
             s2)
          (note Call_render w)
    end.
Proof.
  intros H. unfold _render. cbn [node note context].
  destruct (contentsModel (context w)) as [cm|]; [|reflexivity].
  rewrite H. reflexivity.
Qed.

Lemma img_src_tree w (a s a1 s1 a2 s2 : list (string * string)) :
  node w = viewer_tree a s a1 s1 a2 s2 -> img_src w = assoc_get "src" a2.
Proof. intros H. unfold img_src. rewrite H. reflexivity. Qed.

Lemma style_transform_tree w (a s a1 s1 a2 s2 : list (string * string)) :
  node w = viewer_tree a s a1 s1 a2 s2 ->
  style_transform w = assoc_get "transform" s1.
Proof. intros H. unfold style_transform. rewrite H. reflexivity. Qed.

Lemma style_filter_tree w (a s a1 s1 a2 s2 : list (string * string)) :
  node w = viewer_tree a s a1 s1 a2 s2 ->
  style_filter w = assoc_get "filter" s1.
Proof. intros H. unfold style_filter. rewrite H. reflexivity. Qed.

(** *** The invariant of the DOM *)

Lemma dom_invariant_new (ctx : Context) : dom_invariant (new_ImageViewer ctx).
Proof.
  exists [("tabindex", "-1"); ("class", "jp-ImageViewer")], [], [], [], [], [].
  split; [reflexivity|]. cbn.
  repeat split; try reflexivity; discriminate.
Qed.

(** Steps that touch neither the tree nor the fields and call neither
    [_render] nor [updateStyle]. *)
Lemma dom_invariant_frame w w' :
  dom_invariant w ->
  node w' = node w ->
  _scale w' = _scale w -> _rotation w' = _rotation w ->
  _horizontalflip w' = _horizontalflip w ->
  _verticalflip w' = _verticalflip w ->
  _colorinversion w' = _colorinversion w ->
  (isReady (context w) = true -> isReady (context w') = true) ->
  (history w' = history w \/ history w' = Call_resolve :: history w) ->
  dom_invariant w'.
Proof.
  intros (a & s & a1 & s1 & a2 & s2 & Hn & Hs & Hr1 & Hr2)
         En E1 E2 E3 E4 E5 Hc Hh.
  assert (Hu : calls Call_updateStyle (history w') =
               calls Call_updateStyle (history w))
    by (destruct Hh as [->| ->]; reflexivity).
  assert (Hr : calls Call_render (history w') = calls Call_render (history w))
    by (destruct Hh as [->| ->]; reflexivity).
  exists a, s, a1, s1, a2, s2. rewrite En, Hu, Hr.
  unfold transform_of, filter_of. rewrite E1, E2, E3, E4, E5.
  split; [exact Hn|]. split; [exact Hs|]. split; [exact Hr1|].
  intros u Hu'. destruct (Hr2 u Hu') as [H1 H2]. split; auto.
Qed.

Lemma dom_invariant_updateStyle w w1 :
  dom_invariant w ->
  node w1 = node w -> history w1 = history w -> context w1 = context w ->
  dom_invariant (state_of (updateStyle w1)).
Proof.
  intros (a & s & a1 & s1 & a2 & s2 & Hn & _ & Hr1 & Hr2) En Eh Ec.
  rewrite (updateStyle_tree w1 a s a1 s1 a2 s2) by congruence.
  cbn [state_of].
  eexists a, s, a1, _, a2, s2. split; [reflexivity|].
  cbn [history with_node note context]. rewrite calls_cons_same.
  rewrite calls_cons_other by reflexivity. rewrite Eh, Ec.
  split; [|split; [exact Hr1|exact Hr2]].
  split.
  - rewrite assoc_get_set_other by discriminate.
    rewrite assoc_get_set_same. reflexivity.
  - rewrite assoc_get_set_same. reflexivity.
Qed.

Lemma dom_invariant_render w w1 :
  dom_invariant w ->
  node w1 = node w -> history w1 = history w ->
  _scale w1 = _scale w -> _rotation w1 = _rotation w ->
  _horizontalflip w1 = _horizontalflip w ->
  _verticalflip w1 = _verticalflip w ->
  _colorinversion w1 = _colorinversion w ->
  isReady (context w1) = true ->
  exists w2, _render w1 = Normal w2 /\ dom_invariant w2.
Proof.
  intros (a & s & a1 & s1 & a2 & s2 & Hn & Hs & Hr1 & Hr2)
         En Eh E1 E2 E3 E4 E5 Hc.
  rewrite (_render_tree w1 a s a1 s1 a2 s2) by congruence.
  eexists. split; [reflexivity|].
  destruct (contentsModel (context w1)) as [cm|].
  - eexists a, s, a1, s1, _, s2. split; [reflexivity|].
    cbn [history with_node note context]. rewrite calls_cons_same.
    rewrite calls_cons_other by reflexivity. rewrite Eh.
    unfold transform_of, filter_of.
    cbn [_scale _rotation _horizontalflip _verticalflip _colorinversion
         with_node note].
    rewrite E1, E2, E3, E4, E5.
    split; [exact Hs|]. split; [discriminate|].
    intros u Hu. rewrite assoc_get_set_same in Hu. injection Hu as <-.
    split; [exact Hc|]. eexists _, _. reflexivity.
  - exists a, s, a1, s1, a2, s2.
    cbn [node history note context]. rewrite calls_cons_same.
    rewrite calls_cons_other by reflexivity. rewrite Eh.
    unfold transform_of, filter_of.
    cbn [_scale _rotation _horizontalflip _verticalflip _colorinversion note].
    rewrite E1, E2, E3, E4, E5.
    split; [congruence|]. split; [exact Hs|]. split; [discriminate|].
    intros u Hu. destruct (Hr2 u Hu) as [_ H2]. split; [exact Hc|exact H2].
Qed.

Lemma step_dom_invariant e w :
  dom_invariant w -> dom_invariant (state_of (step e w)).
Proof.
  intros Hinv.
  destruct e; cbn [step].
  - unfold set_scale. destruct (strict_eq _ _); [exact Hinv|].
    apply (dom_invariant_updateStyle w); [exact Hinv|..];
      destruct w; reflexivity.
  - unfold set_rotation. destruct (strict_eq _ _); [exact Hinv|].
    apply (dom_invariant_updateStyle w); [exact Hinv|..];
      destruct w; reflexivity.
  - unfold set_horizontalflip. destruct (strict_eq _ _); [exact Hinv|].
    apply (dom_invariant_updateStyle w); [exact Hinv|..];
      destruct w; reflexivity.
  - unfold set_verticalflip. destruct (strict_eq _ _); [exact Hinv|].
    apply (dom_invariant_updateStyle w); [exact Hinv|..];
      destruct w; reflexivity.
  - unfold set_colorinversion. destruct (strict_eq _ _); [exact Hinv|].
    apply (dom_invariant_updateStyle w); [exact Hinv|..];
      destruct w; reflexivity.
  - unfold onUpdateRequest.
    destruct (isDisposed w); cbn [orb]; [exact Hinv|].
    destruct (isReady (context w)) eqn:Hr; cbn [negb]; [|exact Hinv].
    destruct (dom_invariant_render w w Hinv) as (w2 & -> & H2);
      try reflexivity; [exact Hr|exact H2].
  - apply (dom_invariant_frame w); try reflexivity; auto.
  - apply (dom_invariant_frame w); try reflexivity; auto.
  - apply (dom_invariant_frame w); try reflexivity; auto.
  - destruct (isReady (context w)) eqn:Hr; cbn [andb]; [|exact Hinv].
    destruct (ready_then w); [|exact Hinv].
    unfold ready_continuation. cbn [isDisposed with_ready_then].
    destruct (isDisposed w).
    + apply (dom_invariant_frame w); try reflexivity; auto.
    + destruct (dom_invariant_render w (with_ready_then false w) Hinv)
        as (w2 & -> & H2); try reflexivity; [exact Hr|].
      cbn [and_then state_of].
      apply (dom_invariant_frame w2); try reflexivity; auto.
  - cbn. destruct (existsb _ _);
      apply (dom_invariant_frame w); try reflexivity; auto.
  - apply (dom_invariant_frame w); try reflexivity; auto.
Qed.

Lemma reachable_dom_invariant (ctx : Context) (es : list Event) :
  dom_invariant (run es (new_ImageViewer ctx)).
Proof.
  apply run_invariant.
  - intros e w. apply step_dom_invariant.
  - apply dom_invariant_new.
Qed.

(** X2.  At every moment of a widget's life the styles of the inner
    container agree with the five properties: as long as [updateStyle] has
    not been called there is neither a transform nor a filter and the
    properties hold their initial values 1, 0, 1, 1, 0; once it has been
    called, the transform and the filter are the strings of the current
    values, whatever was rendered, connected or disposed in between. *)
Theorem styles_follow_properties (ctx : Context) (es : list Event) :
  let w := run es (new_ImageViewer ctx) in
  match calls Call_updateStyle (history w) with
  | O =>
      style_transform w = None /\ style_filter w = None /\
      scale w = lit 1 /\ rotation w = lit 0 /\
      horizontalflip w = lit 1 /\ verticalflip w = lit 1 /\
      colorinversion w = lit 0
  | S _ =>
      style_transform w = Some (transform_of w) /\
      style_filter w = Some (filter_of w)
  end.
Proof.
  intros w.
  destruct (reachable_dom_invariant ctx es)
    as (a & s & a1 & s1 & a2 & s2 & Hn & Hs & _).
  fold w in Hn, Hs.
  rewrite (style_transform_tree w _ _ _ _ _ _ Hn).
  rewrite (style_filter_tree w _ _ _ _ _ _ Hn).
  destruct (calls Call_updateStyle (history w)).
  - destruct Hs as (-> & Hs). split; [reflexivity|]. split; [reflexivity|].
    exact Hs.
  - exact Hs.
Qed.

(** X3.  At every moment of a widget's life the image has no source as
    long as [_render] has not been called, and a source it has was written
    while the context was ready and is a data URI
    [data:<mimetype>;<format>,<content>].  Only an update request and the
    reaction on the context's ready promise can change it: a setter call,
    an activation, a disposal, the context becoming ready, and a change of
    its path or of its contents all leave the source as it was. *)
Theorem image_source_is_a_data_uri (ctx : Context) (es : list Event) :
  let w := run es (new_ImageViewer ctx) in
  (calls Call_render (history w) = 0 -> img_src w = None) /\
  (forall u, img_src w = Some u ->
             isReady (context w) = true /\
             exists cm content, u = data_uri cm content) /\
  (forall e,
     match e with
     | UpdateRequest | ReadyReaction => True
     | _ => img_src (state_of (step e w)) = img_src w
     end).
Proof.
  intros w.
  destruct (reachable_dom_invariant ctx es)
    as (a & s & a1 & s1 & a2 & s2 & Hn & _ & Hr1 & Hr2).
  fold w in Hn, Hr1, Hr2. clearbody w.
  rewrite (img_src_tree w _ _ _ _ _ _ Hn).
  split; [exact Hr1|]. split; [exact Hr2|].
  assert (Hstyle : forall w1, node w1 = node w ->
            img_src (state_of (updateStyle w1)) = assoc_get "src" a2).
  { intros w1 E.
    rewrite (updateStyle_tree w1 a s a1 s1 a2 s2) by congruence.
    cbn [state_of]. erewrite img_src_tree by reflexivity. reflexivity. }
  assert (Hsame : forall w', node w' = node w ->
            img_src w' = assoc_get "src" a2).
  { intros w' E. apply (img_src_tree w' a s a1 s1 a2 s2). congruence. }
  intros e. destruct e; cbn [step]; try exact I.
  - unfold set_scale. destruct (strict_eq _ _); [apply Hsame; reflexivity|].
    apply Hstyle. destruct w; reflexivity.
  - unfold set_rotation. destruct (strict_eq _ _); [apply Hsame; reflexivity|].
    apply Hstyle. destruct w; reflexivity.
  - unfold set_horizontalflip.
    destruct (strict_eq _ _); [apply Hsame; reflexivity|].
    apply Hstyle. destruct w; reflexivity.
  - unfold set_verticalflip.
    destruct (strict_eq _ _); [apply Hsame; reflexivity|].
    apply Hstyle. destruct w; reflexivity.
  - unfold set_colorinversion.
    destruct (strict_eq _ _); [apply Hsame; reflexivity|].
    apply Hstyle. destruct w; reflexivity.
  - apply Hsame. destruct w; reflexivity.
  - apply Hsame. destruct w; reflexivity.
  - apply Hsame. destruct w; reflexivity.
  - cbn. destruct (existsb _ _); apply Hsame; destruct w; reflexivity.
  - apply Hsame. destruct w; reflexivity.
Qed.

(** X11.  On a live widget whose context is ready, a change of the contents
    followed by an update request shows the new contents: the image source
    is the data URI of the new contents model and content.  If the contents
    model has gone, the update request leaves the image as it was. *)
Theorem update_after_change_shows_new_contents (ctx : Context)
  (es : list Event) (cm : ContentsModel) (content : string) :
  let w := run es (new_ImageViewer ctx) in
  isDisposed w = false ->
  isReady (context w) = true ->
  img_src (run [ContentsChanged (Some cm) content; UpdateRequest] w) =
    Some (data_uri cm content) /\
  img_src (run [ContentsChanged None content; UpdateRequest] w) = img_src w.
Proof.
  intros w Hd Hr.
  destruct (reachable_invariant ctx es)
    as [(a & s & a1 & s1 & a2 & s2 & Hn) _].
  fold w in Hn. change (node w = viewer_tree a s a1 s1 a2 s2) in Hn.
  unfold run. cbn [fold_left step state_of]. unfold onUpdateRequest.
  cbn [isDisposed context context_contents with_context isReady].
  rewrite Hd, Hr. cbn [orb negb]. split.
  - rewrite (_render_tree _ a s a1 s1 a2 s2) by exact Hn.
    cbn [state_of context context_contents with_context contentsModel
         model_toString].
    erewrite img_src_tree by reflexivity. apply assoc_get_set_same.
  - rewrite (_render_tree _ a s a1 s1 a2 s2) by exact Hn.
    cbn [state_of context context_contents with_context contentsModel].
    rewrite (img_src_tree w _ _ _ _ _ _ Hn).
    apply (img_src_tree _ a s a1 s1 a2 s2). exact Hn.
Qed.

(** X12.  Rendering twice in a row is rendering once, as far as the DOM
    goes: the second [_render] of unchanged contents completes and leaves
    the tree exactly as the first one left it. *)
Theorem render_twice_is_render_once (ctx : Context) (es : list Event) :
  let w := run es (new_ImageViewer ctx) in
  let w1 := state_of (_render w) in
  exists w2, _render w1 = Normal w2 /\ node w2 = node w1.
Proof.
  intros w w1.
  destruct (reachable_invariant ctx es)
    as [(a & s & a1 & s1 & a2 & s2 & Hn) _].
  fold w in Hn. change (node w = viewer_tree a s a1 s1 a2 s2) in Hn.
  subst w1. rewrite (_render_tree w a s a1 s1 a2 s2 Hn). cbn [state_of].
  destruct (contentsModel (context w)) as [cm|] eqn:Hcm.
  - erewrite _render_tree by reflexivity.
    eexists. split; [reflexivity|].
    cbn [context with_node note]. rewrite Hcm.
    cbn [node with_node]. rewrite assoc_set_set. reflexivity.
  - rewrite (_render_tree (note Call_render w) a s a1 s1 a2 s2 Hn).
    eexists. split; [reflexivity|].
    cbn [context note]. rewrite Hcm. reflexivity.
Qed.

(** *** The title *)

Lemma title_invariant_frame w w' :
  title_invariant w ->
  isDisposed w' = isDisposed w ->
  pathChanged (context w') = pathChanged (context w) ->
  localPath (context w') = localPath (context w) ->
  title_label w' = title_label w ->
  title_invariant w'.
Proof.
  unfold title_invariant. intros H -> -> -> ->. exact H.
Qed.

Lemma step_title_invariant e w :
  title_invariant w -> title_invariant (state_of (step e w)).
Proof.
  intros Hinv.
  assert (Hstyle : forall w1, isDisposed w1 = isDisposed w ->
            context w1 = context w -> title_label w1 = title_label w ->
            title_invariant (state_of (updateStyle w1))).
  { intros w1 E1 E2 E3. destruct (updateStyle_state w1) as (n & ->).
    apply (title_invariant_frame w); cbn; solve [exact Hinv|congruence]. }
  assert (Hrender : forall w1, isDisposed w1 = isDisposed w ->
            context w1 = context w -> title_label w1 = title_label w ->
            exists w2, state_of (_render w1) = w2 /\
                       isDisposed w2 = isDisposed w /\
                       context w2 = context w /\
                       title_label w2 = title_label w).
  { intros w1 E1 E2 E3. destruct (_render_state w1) as (n & ->).
    eexists. split; [reflexivity|]. cbn. auto. }
  destruct e; cbn [step].
  - unfold set_scale. destruct (strict_eq _ _); [exact Hinv|].
    apply Hstyle; destruct w; reflexivity.
  - unfold set_rotation. destruct (strict_eq _ _); [exact Hinv|].
    apply Hstyle; destruct w; reflexivity.
  - unfold set_horizontalflip. destruct (strict_eq _ _); [exact Hinv|].
    apply Hstyle; destruct w; reflexivity.
  - unfold set_verticalflip. destruct (strict_eq _ _); [exact Hinv|].
    apply Hstyle; destruct w; reflexivity.
  - unfold set_colorinversion. destruct (strict_eq _ _); [exact Hinv|].
    apply Hstyle; destruct w; reflexivity.
  - unfold onUpdateRequest. destruct (_ || _); [exact Hinv|].
    destruct (Hrender w) as (w2 & -> & E1 & E2 & E3); try reflexivity.
    apply (title_invariant_frame w); solve [exact Hinv|congruence].
  - apply (title_invariant_frame w); try reflexivity. exact Hinv.
  - intros H. discriminate H.
  - apply (title_invariant_frame w); try reflexivity. exact Hinv.
  - destruct (_ && _); [|exact Hinv].
    unfold ready_continuation. cbn [isDisposed with_ready_then].
    destruct (isDisposed w) eqn:Hd.
    + apply (title_invariant_frame w); try reflexivity; exact Hinv.
    + destruct (Hrender (with_ready_then false w))
        as (w2 & Hw2 & E1 & E2 & E3); try reflexivity; [exact Hd|].
      destruct (_render (with_ready_then false w)) as [w3|w3];
        cbn [state_of and_then] in Hw2 |- *; subst w3;
        apply (title_invariant_frame w); cbn; try exact Hinv;
        try congruence; rewrite E2; reflexivity.
  - cbn. destruct (existsb _ _) eqn:Hslot.
    + intros _. split; [exact Hslot|reflexivity].
    + intros Hd. destruct (Hinv Hd) as [H _]. congruence.
  - apply (title_invariant_frame w); try reflexivity. exact Hinv.
Qed.

Lemma connect_present (x : Slot) (l : list Slot) :
  existsb (Slot_eqb x) (connect x l) = true.
Proof.
  unfold connect. destruct (existsb (Slot_eqb x) l) eqn:E; [exact E|].
  rewrite existsb_app. cbn. destruct x; cbn; apply orb_true_r.
Qed.

(** X1.  As long as a widget is not disposed its title is the basename of
    the context's path: it is set at construction and follows every change
    of path, before and after the context is ready. *)
Theorem title_follows_path (ctx : Context) (es : list Event) :
  let w := run es (new_ImageViewer ctx) in
  isDisposed w = false ->
  title_label w = PathExt_basename (localPath (context w)) /\
  forall p, title_label (run [PathChanged p] w) = PathExt_basename p.
Proof.
  intros w Hd.
  assert (Hinv : title_invariant w).
  { apply run_invariant.
    - intros e w'. apply step_title_invariant.
    - intros _. split; [apply connect_present|reflexivity]. }
  destruct (Hinv Hd) as [Hslot Ht]. split; [exact Ht|].
  intros p. unfold run. cbn [fold_left step].
  cbn [context context_path with_context pathChanged]. rewrite Hslot.
  reflexivity.
Qed.

(** *** The connections of [update] *)

Lemma update_slots_frame w w' :
  update_slots_invariant w ->
  model_contentChanged (context w') = model_contentChanged (context w) ->
  fileChanged (context w') = fileChanged (context w) ->
  isDisposed w' = isDisposed w ->
  _ready w' = _ready w ->
  update_slots_invariant w'.
Proof.
  unfold update_slots_invariant, expected_update_slots, ready.
  intros H -> -> -> ->. exact H.
Qed.

Lemma step_update_slots e w :
  update_slots_invariant w -> update_slots_invariant (state_of (step e w)).
Proof.
  intros Hinv.
  assert (Hstyle : forall w1, isDisposed w1 = isDisposed w ->
            context w1 = context w -> _ready w1 = _ready w ->
            update_slots_invariant (state_of (updateStyle w1))).
  { intros w1 E1 E2 E3. destruct (updateStyle_state w1) as (n & ->).
    apply (update_slots_frame w); cbn; solve [exact Hinv|congruence]. }
  destruct e; cbn [step].
  - unfold set_scale. destruct (strict_eq _ _); [exact Hinv|].
    apply Hstyle; destruct w; reflexivity.
  - unfold set_rotation. destruct (strict_eq _ _); [exact Hinv|].
    apply Hstyle; destruct w; reflexivity.
  - unfold set_horizontalflip. destruct (strict_eq _ _); [exact Hinv|].
    apply Hstyle; destruct w; reflexivity.
  - unfold set_verticalflip. destruct (strict_eq _ _); [exact Hinv|].
    apply Hstyle; destruct w; reflexivity.
  - unfold set_colorinversion. destruct (strict_eq _ _); [exact Hinv|].
    apply Hstyle; destruct w; reflexivity.
  - unfold onUpdateRequest. destruct (_ || _); [exact Hinv|].
    destruct (_render_state w) as (n & ->).
    apply (update_slots_frame w); try reflexivity. exact Hinv.
  - apply (update_slots_frame w); try reflexivity. exact Hinv.
  - split; reflexivity.
  - apply (update_slots_frame w); try reflexivity. exact Hinv.
  - destruct (_ && _); [|exact Hinv].
    unfold ready_continuation. cbn [isDisposed with_ready_then].
    destruct (isDisposed w) eqn:Hd.
    + apply (update_slots_frame w); try reflexivity; exact Hinv.
    + destruct (_render_state (with_ready_then false w)) as (n & Hn).
      destruct (_render (with_ready_then false w)) as [w3|w3];
        cbn [state_of and_then] in Hn |- *; subst w3.
      * destruct Hinv as [H1 H2].
        unfold update_slots_invariant, expected_update_slots, ready in *.
        cbn. rewrite Hd in *. rewrite H1, H2. unfold resolve.
        destruct (promise (_ready w)) eqn:Hp; cbn; rewrite ?Hp;
          split; reflexivity.
      * apply (update_slots_frame w); cbn; try reflexivity;
          solve [exact Hinv|congruence].
  - cbn. destruct (existsb _ _);
      apply (update_slots_frame w); try reflexivity; exact Hinv.
  - apply (update_slots_frame w); try reflexivity. exact Hinv.
Qed.

(** X5.  For a context whose change signals start without connections: at
    every moment of a widget's life its [update] is connected to the
    content-changed and file-changed signals exactly when the widget is not
    disposed and its ready promise is fulfilled, and then it is connected
    once. *)
Theorem update_is_connected_when_ready (ctx : Context) (es : list Event) :
  model_contentChanged ctx = [] ->
  fileChanged ctx = [] ->
  let w := run es (new_ImageViewer ctx) in
  let connected := isDisposed w = false /\ ready w = Fulfilled tt in
  (connected ->
   model_contentChanged (context w) = [Slot_update] /\
   fileChanged (context w) = [Slot_update]) /\
  (~ connected ->
   model_contentChanged (context w) = [] /\ fileChanged (context w) = []).
Proof.
  intros Hc Hf w connected.
  assert (Hinv : update_slots_invariant w).
  { apply run_invariant.
    - intros e w'. apply step_update_slots.
    - split; cbn; assumption. }
  destruct (reachable_invariant ctx es) as [_ Hr]. fold w in Hr.
  destruct Hinv as [H1 H2]. rewrite H1, H2.
  unfold expected_update_slots. subst connected. split.
  - intros [-> ->]. split; reflexivity.
  - intros Hn. destruct (isDisposed w); [split; reflexivity|].
    destruct (ready w) as [|[]|r]; [split; reflexivity| |contradiction].
    exfalso. apply Hn. split; reflexivity.
Qed.

(** *** After disposal *)

Lemma step_frozen_since w0 e w :
  frozen_since w0 w -> frozen_since w0 (state_of (step e w)).
Proof.
  intros (Hn & Hd & Hr & Hs & Hc1 & Hc2).
  assert (Hframe : forall w', node w' = node w -> isDisposed w' = true ->
            _ready w' = _ready w -> history w' = history w ->
            frozen_since w0 w').
  { intros w' E1 E2 E3 E4. unfold frozen_since, ready, img_src in *.
    rewrite E1, E2, E3, E4. repeat split; assumption. }
  assert (Hstyle : forall w1, node w1 = node w -> isDisposed w1 = true ->
            _ready w1 = _ready w -> history w1 = history w ->
            frozen_since w0 (state_of (updateStyle w1))).
  { intros w1 E1 E2 E3 E4.
    destruct Hn as (a & s & a1 & s1 & a2 & s2 & Hn).
    change (node w = viewer_tree a s a1 s1 a2 s2) in Hn.
    rewrite (updateStyle_tree w1 a s a1 s1 a2 s2) by congruence.
    cbn [state_of]. unfold frozen_since, ready in *.
    erewrite img_src_tree by reflexivity.
    rewrite (img_src_tree w _ _ _ _ _ _ Hn) in Hs.
    cbn [node isDisposed _ready history with_node note].
    rewrite !calls_cons_other by reflexivity.
    rewrite E2, E3, E4. repeat split; try assumption.
    repeat eexists. }
  destruct e; cbn [step].
  - unfold set_scale. destruct (strict_eq _ _); [repeat split; assumption|].
    apply Hstyle; destruct w; cbn in *; auto.
  - unfold set_rotation. destruct (strict_eq _ _); [repeat split; assumption|].
    apply Hstyle; destruct w; cbn in *; auto.
  - unfold set_horizontalflip.
    destruct (strict_eq _ _); [repeat split; assumption|].
    apply Hstyle; destruct w; cbn in *; auto.
  - unfold set_verticalflip.
    destruct (strict_eq _ _); [repeat split; assumption|].
    apply Hstyle; destruct w; cbn in *; auto.
  - unfold set_colorinversion.
    destruct (strict_eq _ _); [repeat split; assumption|].
    apply Hstyle; destruct w; cbn in *; auto.
  - unfold onUpdateRequest. rewrite Hd. repeat split; assumption.
  - apply Hframe; destruct w; cbn in *; auto.
  - apply Hframe; destruct w; cbn in *; auto.
  - apply Hframe; destruct w; cbn in *; auto.
  - destruct (_ && _); [|repeat split; assumption].
    unfold ready_continuation. cbn [isDisposed with_ready_then]. rewrite Hd.
    apply Hframe; destruct w; cbn in *; auto.
  - cbn. destruct (existsb _ _); apply Hframe; destruct w; cbn in *; auto.
  - apply Hframe; destruct w; cbn in *; auto.
Qed.

(** X4.  Disposal is final.  Once a widget is disposed, whatever happens
    next (setter calls, update requests, the context becoming ready, the
    reaction on its ready promise, changes of contents), it stays disposed,
    [_render] and the resolver are never called again, the image source
    stays what it was and the ready promise stays in the state it was in. *)
Theorem disposed_widget_is_frozen (ctx : Context) (es es' : list Event) :
  let w := run es (new_ImageViewer ctx) in
  isDisposed w = true ->
  let w' := run es' w in
  isDisposed w' = true /\
  ready w' = ready w /\
  img_src w' = img_src w /\
  calls Call_render (history w') = calls Call_render (history w) /\
  calls Call_resolve (history w') = calls Call_resolve (history w).
Proof.
  intros w Hd w'.
  assert (H : frozen_since w w').
  { apply (run_invariant (frozen_since w)).
    - intros e w1. apply step_frozen_since.
    - destruct (reachable_invariant ctx es) as [Hn _].
      repeat split; assumption. }
  apply H.
Qed.

(** *** When the tree is not the one of [createNode] *)

(** X13.  With a contents model on the context, [_render] completes if and
    only if the tree has an image element; without one it throws, after
    the call was recorded and before anything was written. *)
Theorem render_needs_the_image_element w (cm : ContentsModel) :
  contentsModel (context w) = Some cm ->
  ((exists w', _render w = Normal w') <->
   querySelector "img" (node w) <> None) /\
  (querySelector "img" (node w) = None ->
   _render w = Thrown (note Call_render w) /\
   node (state_of (_render w)) = node w).
Proof.
  intros Hcm. split; [split|].
  - intros (w' & Hw') Hq.
    rewrite (_render_throws_without_image w cm Hcm Hq) in Hw'. discriminate.
  - intros Hq. destruct (querySelector "img" (node w)) as [image|] eqn:E;
      [|contradiction].
    destruct (_render_sets_src w cm image Hcm E) as (w' & Hw' & _).
    exists w'. exact Hw'.
  - intros Hq. rewrite (_render_throws_without_image w cm Hcm Hq).
    split; reflexivity.
Qed.

(** X14.  A setter assigns its field before it recomputes the style: when
    the tree has no inner container, a setter called with a new value
    throws, and the widget it leaves behind already holds the new value
    (for the rotation, its remainder by 360), with the tree untouched. *)
Theorem setter_stores_before_style_fails w (v : number) :
  querySelector "div" (node w) = None ->
  (strict_eq v (_scale w) = false ->
   exists w', set_scale v w = Thrown w' /\ scale w' = v /\
              node w' = node w) /\
  (strict_eq v (_rotation w) = false ->
   exists w', set_rotation v w = Thrown w' /\
              rotation w' = rem v (lit 360) /\ node w' = node w) /\
  (strict_eq v (_horizontalflip w) = false ->
   exists w', set_horizontalflip v w = Thrown w' /\ horizontalflip w' = v /\
              node w' = node w) /\
  (strict_eq v (_verticalflip w) = false ->
   exists w', set_verticalflip v w = Thrown w' /\ verticalflip w' = v /\
              node w' = node w) /\
  (strict_eq v (_colorinversion w) = false ->
   exists w', set_colorinversion v w = Thrown w' /\ colorinversion w' = v /\
              node w' = node w).
Proof.
  intros Hq.
  unfold set_scale, set_rotation, set_horizontalflip, set_verticalflip,
    set_colorinversion.
  repeat split; intros ->;
    (rewrite updateStyle_throws_without_div by (destruct w; exact Hq));
    eexists; (split; [reflexivity|]); split; destruct w; reflexivity.
Qed.

End Lifetime.

(* ================================================================= *)
(** ** More on integer-valued properties *)

Local Open Scope Z_scope.

Lemma rotation_after_set (ctx : Context) (es : list (Event (number := Z)))
  (x : Z) :
  _rotation (state_of (set_rotation x (run es (new_ImageViewer ctx)))) =
  Z.rem x 360.
Proof.
  pose proof (rotation_bound ctx es) as Hb.
  destruct (step_fields (SetRotation x) (run es (new_ImageViewer ctx)))
    as (_ & H & _).
  cbn [step] in H. rewrite H. cbn.
  destruct (x =? _rotation (run es (new_ImageViewer ctx))) eqn:E;
    [|reflexivity].
  apply Z.eqb_eq in E. rewrite <- E in *. symmetry. apply rem_360_small.
  exact Hb.
Qed.

(** X9.  Whatever its sign, the rotation a widget stores after the setter
    was called with [x] is congruent to [x] modulo 360: the image is turned
    by the angle that was asked for. *)
Theorem rotation_setter_keeps_the_angle (ctx : Context)
  (es : list (Event (number := Z))) (x : Z) :
  let w := state_of (set_rotation x (run es (new_ImageViewer ctx))) in
  rotation w mod 360 = x mod 360.
Proof.
  intros w. unfold rotation. subst w. rewrite rotation_after_set.
  Z.to_euclidean_division_equations. lia.
Qed.

Lemma nonnegative_rotation_run (es : list (Event (number := Z)))
  (w : ImageViewer Z) :
  Forall nonnegative_rotation es ->
  0 <= _rotation w < 360 -> 0 <= _rotation (run es w) < 360.
Proof.
  intros HF. revert w.
  induction HF as [|e es He _ IH]; intros w Hw; [exact Hw|].
  change (run (e :: es) w) with (run es (state_of (step e w))).
  apply IH.
  destruct (step_fields e w) as (_ & -> & _).
  destruct e; try exact Hw. cbn in He |- *.
  destruct (v =? _rotation w); [exact Hw|].
  apply Z.rem_bound_pos; lia.
Qed.

(** X10.  As long as the rotation setter is called with non-negative
    integers only, the stored rotation is in the range [0,360) at every
    moment of a widget's life. *)
Theorem nonnegative_rotations_stay_in_range (ctx : Context)
  (es : list (Event (number := Z))) :
  Forall nonnegative_rotation es ->
  0 <= rotation (run es (new_ImageViewer ctx)) < 360.
Proof.
  intros HF. unfold rotation. apply nonnegative_rotation_run; [exact HF|].
  cbn. lia.
Qed.

(** X6.  Reading a property back after setting it: each of the setters of
    the scale, the two flips and the colour inversion, called with any
    integer on any widget, leaves its getter returning that integer and the
    four other getters returning what they returned before, whether or not
    the style could be recomputed. *)
Theorem plain_setters_round_trip (w : ImageViewer Z) (v : Z) :
  (let w' := state_of (set_scale v w) in
   scale w' = v /\ rotation w' = rotation w /\
   horizontalflip w' = horizontalflip w /\
   verticalflip w' = verticalflip w /\
   colorinversion w' = colorinversion w) /\
  (let w' := state_of (set_horizontalflip v w) in
   horizontalflip w' = v /\ scale w' = scale w /\
   rotation w' = rotation w /\ verticalflip w' = verticalflip w /\
   colorinversion w' = colorinversion w) /\
  (let w' := state_of (set_verticalflip v w) in
   verticalflip w' = v /\ scale w' = scale w /\
   rotation w' = rotation w /\ horizontalflip w' = horizontalflip w /\
   colorinversion w' = colorinversion w) /\
  (let w' := state_of (set_colorinversion v w) in
   colorinversion w' = v /\ scale w' = scale w /\
   rotation w' = rotation w /\ horizontalflip w' = horizontalflip w /\
   verticalflip w' = verticalflip w).
Proof.
  unfold scale, rotation, horizontalflip, verticalflip, colorinversion.
  cbv zeta.
  pose proof (step_fields (SetScale v) w) as (S1 & S2 & S3 & S4 & S5).
  pose proof (step_fields (SetHorizontalflip v) w) as (H1 & H2 & H3 & H4 & H5).
  pose proof (step_fields (SetVerticalflip v) w) as (V1 & V2 & V3 & V4 & V5).
  pose proof (step_fields (SetColorinversion v) w)
    as (C1 & C2 & C3 & C4 & C5).
  cbn [step strict_eq Z_number] in *.
  assert (E : forall a : Z, (if v =? a then a else v) = v).
  { intros a. destruct (v =? a) eqn:E; [|reflexivity].
    apply Z.eqb_eq in E. congruence. }
  rewrite E in S1, H3, V4, C5.
  repeat split; assumption.
Qed.

(** X7.  Calling one of these four setters a second time with the same
    integer does nothing: the second call returns the widget the first
    call left, without another style recomputation. *)
Theorem plain_setters_are_idempotent (w : ImageViewer Z) (v : Z) :
  set_scale v (state_of (set_scale v w)) = Normal (state_of (set_scale v w))
  /\
  set_horizontalflip v (state_of (set_horizontalflip v w)) =
    Normal (state_of (set_horizontalflip v w)) /\
  set_verticalflip v (state_of (set_verticalflip v w)) =
    Normal (state_of (set_verticalflip v w)) /\
  set_colorinversion v (state_of (set_colorinversion v w)) =
    Normal (state_of (set_colorinversion v w)).
Proof.
  pose proof (step_fields (SetScale v) w) as (S1 & _).
  pose proof (step_fields (SetHorizontalflip v) w) as (_ & _ & H3 & _).
  pose proof (step_fields (SetVerticalflip v) w) as (_ & _ & _ & V4 & _).
  pose proof (step_fields (SetColorinversion v) w) as (_ & _ & _ & _ & C5).
  cbn [step strict_eq Z_number] in *.
  assert (E : forall a : Z, (if v =? a then a else v) = v).
  { intros a. destruct (v =? a) eqn:E; [|reflexivity].
    apply Z.eqb_eq in E. congruence. }
  rewrite E in S1, H3, V4, C5.
  repeat split.
  - unfold set_scale at 1. cbn [strict_eq Z_number].
    rewrite S1, Z.eqb_refl. reflexivity.
  - unfold set_horizontalflip at 1. cbn [strict_eq Z_number].
    rewrite H3, Z.eqb_refl. reflexivity.
  - unfold set_verticalflip at 1. cbn [strict_eq Z_number].
    rewrite V4, Z.eqb_refl. reflexivity.
  - unfold set_colorinversion at 1. cbn [strict_eq Z_number].
    rewrite C5, Z.eqb_refl. reflexivity.
Qed.

Lemma styles_once_written (w : ImageViewer Z) (h : list Call) :
  dom_invariant w ->
  history w = Call_updateStyle :: h ->
  style_transform w = Some (transform_of w) /\
  style_filter w = Some (filter_of w).
Proof.
  intros (a & s & a1 & s1 & a2 & s2 & Hn & Hs & _) Hh.
  rewrite Hh, calls_cons_same in Hs.
  rewrite (style_transform_tree w _ _ _ _ _ _ Hn).
  rewrite (style_filter_tree w _ _ _ _ _ _ Hn). exact Hs.
Qed.

(** X8.  Calling the rotation setter a second time with the same integer
    [v] does nothing when [v] lies strictly between -360 and 360.  For any
    other [v] the stored remainder differs from [v], so the second call
    recomputes the style once more; the stored rotation and the two style
    strings come out the same. *)
Theorem rotation_setter_repeated (ctx : Context)
  (es : list (Event (number := Z))) (v : Z) :
  let w1 := state_of (set_rotation v (run es (new_ImageViewer ctx))) in
  let w2 := state_of (set_rotation v w1) in
  (-360 < v < 360 -> set_rotation v w1 = Normal w1) /\
  (v <= -360 \/ 360 <= v ->
   history w2 = Call_updateStyle :: history w1 /\
   rotation w2 = rotation w1 /\
   style_transform w2 = style_transform w1 /\
   style_filter w2 = style_filter w1).
Proof.
  intros w1 w2.
  assert (Hr1 : _rotation w1 = Z.rem v 360) by apply rotation_after_set.
  split.
  - intros Hv. unfold set_rotation at 1. cbn [strict_eq Z_number].
    rewrite Hr1, rem_360_small by exact Hv. rewrite Z.eqb_refl. reflexivity.
  - intros Hv.
    pose proof (rem_360_bound v) as Hb.
    pose proof (rotation_bound ctx es) as Hb0.
    assert (Hne : (v =? _rotation w1) = false)
      by (apply Z.eqb_neq; rewrite Hr1; lia).
    assert (Hne0 : (v =? _rotation (run es (new_ImageViewer ctx))) = false)
      by (apply Z.eqb_neq; lia).
    assert (Hh1 : history w1 =
                  Call_updateStyle :: history (run es (new_ImageViewer ctx))).
    { subst w1. unfold set_rotation. cbn [strict_eq Z_number]. rewrite Hne0.
      match goal with |- context [updateStyle ?x] =>
        destruct (updateStyle_state x) as (n & ->) end.
      reflexivity. }
    assert (Hw2 : exists n,
              w2 = with_node n
                     (note Call_updateStyle
                        (with_rotation (Z.rem v 360) w1))).
    { subst w2. unfold set_rotation at 1. cbn [strict_eq Z_number rem lit].
      rewrite Hne. apply updateStyle_state. }
    destruct Hw2 as (n & Hw2).
    assert (Hh2 : history w2 = Call_updateStyle :: history w1)
      by (rewrite Hw2; reflexivity).
    assert (Hf : transform_of w2 = transform_of w1 /\
                 filter_of w2 = filter_of w1).
    { rewrite Hw2. unfold transform_of, filter_of.
      cbn [_scale _rotation _horizontalflip _verticalflip _colorinversion
           with_node note with_rotation].
      rewrite <- Hr1. split; reflexivity. }
    assert (Hd1 : dom_invariant w1)
      by exact (step_dom_invariant (SetRotation v) _
                  (reachable_dom_invariant ctx es)).
    assert (Hd2 : dom_invariant w2)
      by exact (step_dom_invariant (SetRotation v) _ Hd1).
    destruct (styles_once_written w1 _ Hd1 Hh1) as [T1 F1].
    destruct (styles_once_written w2 _ Hd2 Hh2) as [T2 F2].
    destruct Hf as [Hf1 Hf2].
    split; [exact Hh2|]. split.
    + unfold rotation. rewrite Hw2. cbn. symmetry. exact Hr1.
    + rewrite T1, T2, F1, F2, Hf1, Hf2. split; reflexivity.
Qed.

(* ================================================================= *)
(** ** More instances *)

(** A widget whose file is renamed once its context is ready. *)
Lemma title_follows_path_witness :
  let w := run [ContextReady] (new_ImageViewer (number := Z) loading_context) in
  isDisposed w = false /\
  title_label w = "cat.png"%string /\
  title_label (run [PathChanged "pics/dog.png"%string] w) = "dog.png"%string.
Proof.
  cbv zeta. split; [reflexivity|].
  destruct (title_follows_path (number := Z) loading_context [ContextReady]
              eq_refl) as [H1 H2].
  split; [exact H1|]. exact (H2 "pics/dog.png"%string).
Defined.

(** The image of a PNG once the reaction has run. *)
Lemma image_source_is_a_data_uri_witness :
  let w := run [ContextReady; ReadyReaction]
               (new_ImageViewer (number := Z) png_context) in
  img_src w = Some "data:image/png;base64,AAAA"%string /\
  (isReady (context w) = true /\
   exists cm content,
     "data:image/png;base64,AAAA"%string = data_uri cm content) /\
  img_src (state_of (step (SetScale 2) w)) = img_src w /\
  img_src (state_of (step Dispose w)) = img_src w.
Proof.
  cbv zeta. split; [reflexivity|].
  destruct (image_source_is_a_data_uri (number := Z) png_context
              [ContextReady; ReadyReaction]) as (_ & H & Hkeep).
  split; [apply H; reflexivity|].
  split; [exact (Hkeep (SetScale 2))|exact (Hkeep Dispose)].
Defined.

(** A widget disposed after its first render, then sent new contents, an
    update request and a zoom. *)
Lemma disposed_widget_is_frozen_witness :
  let w := run [ContextReady; ReadyReaction; Dispose]
               (new_ImageViewer (number := Z) png_context) in
  let w' := run [ContentsChanged
                   (Some (mkContentsModel "image/gif" "base64")) "BBBB";
                 UpdateRequest; SetScale 2] w in
  isDisposed w = true /\
  isDisposed w' = true /\
  ready w' = Fulfilled tt /\
  img_src w' = Some "data:image/png;base64,AAAA"%string /\
  calls Call_render (history w') = 1%nat /\
  calls Call_resolve (history w') = 1%nat.
Proof.
  cbv zeta. split; [reflexivity|].
  apply (disposed_widget_is_frozen (number := Z) png_context
           [ContextReady; ReadyReaction; Dispose]
           [ContentsChanged (Some (mkContentsModel "image/gif" "base64"))
              "BBBB"; UpdateRequest; SetScale 2]).
  reflexivity.
Defined.

(** The connections before and after the reaction has run. *)
Lemma update_is_connected_when_ready_witness :
  let w0 := run [ContextReady] (new_ImageViewer (number := Z) png_context) in
  let w := run [ReadyReaction] w0 in
  (model_contentChanged png_context = [] /\ fileChanged png_context = []) /\
  (~ (isDisposed w0 = false /\ ready w0 = Fulfilled tt) /\
   model_contentChanged (context w0) = [] /\ fileChanged (context w0) = []) /\
  ((isDisposed w = false /\ ready w = Fulfilled tt) /\
   model_contentChanged (context w) = [Slot_update] /\
   fileChanged (context w) = [Slot_update]).
Proof.
  cbv zeta. split; [split; reflexivity|]. split.
  - assert (H : ~ (false = false /\ @Pending unit = Fulfilled tt))
      by (intros [_ H]; discriminate H).
    split; [exact H|].
    apply (proj2 (update_is_connected_when_ready (number := Z) png_context
                    [ContextReady] eq_refl eq_refl)).
    exact H.
  - split; [split; reflexivity|].
    apply (proj1 (update_is_connected_when_ready (number := Z) png_context
                    [ContextReady; ReadyReaction] eq_refl eq_refl)).
    split; reflexivity.
Defined.

(** A quarter turn asked twice, and two full turns asked twice. *)
Lemma rotation_setter_repeated_witness :
  let w := new_ImageViewer (number := Z) loading_context in
  let a1 := state_of (set_rotation 90 w) in
  let b1 := state_of (set_rotation 720 w) in
  let b2 := state_of (set_rotation 720 b1) in
  (-360 < 90 < 360 /\ set_rotation 90 a1 = Normal a1) /\
  ((720 <= -360 \/ 360 <= 720) /\
   history b2 = Call_updateStyle :: history b1 /\
   rotation b2 = rotation b1 /\
   style_transform b2 = style_transform b1 /\
   style_filter b2 = style_filter b1).
Proof.
  cbv zeta. split.
  - split; [lia|].
    apply (proj1 (rotation_setter_repeated loading_context [] 90)). lia.
  - split; [right; lia|].
    apply (proj2 (rotation_setter_repeated loading_context [] 720)).
    right. lia.
Defined.

(** Quarter turns to the right. *)
Lemma nonnegative_rotations_stay_in_range_witness :
  let es := [SetRotation 90; SetRotation 180; SetRotation 270;
             SetRotation 360; SetRotation 450] in
  Forall nonnegative_rotation es /\
  0 <= rotation (run es (new_ImageViewer loading_context)) < 360.
Proof.
  cbv zeta.
  assert (H : Forall nonnegative_rotation
                [SetRotation 90; SetRotation 180; SetRotation 270;
                 SetRotation 360; SetRotation 450]).
  { repeat constructor; cbn; lia. }
  split; [exact H|].
  apply (nonnegative_rotations_stay_in_range loading_context _ H).
Defined.

(** A GIF replaces the PNG of a widget that has rendered. *)
Lemma update_after_change_shows_new_contents_witness :
  let w := run [ContextReady; ReadyReaction]
               (new_ImageViewer (number := Z) png_context) in
  (isDisposed w = false /\ isReady (context w) = true) /\
  img_src (run [ContentsChanged
                  (Some (mkContentsModel "image/gif" "base64")) "BBBB";
                UpdateRequest] w) =
    Some "data:image/gif;base64,BBBB"%string /\
  img_src (run [ContentsChanged None "BBBB"; UpdateRequest] w) = img_src w.
Proof.
  cbv zeta. split; [split; reflexivity|].
  apply (update_after_change_shows_new_contents (number := Z) png_context
           [ContextReady; ReadyReaction]
           (mkContentsModel "image/gif" "base64") "BBBB");
    reflexivity.
Defined.

(** A render on a tree without an image element. *)
Lemma render_needs_the_image_element_witness :
  contentsModel (context bare_widget) =
    Some (mkContentsModel "image/png" "base64") /\
  querySelector "img" (node bare_widget) = None /\
  _render bare_widget = Thrown (note Call_render bare_widget) /\
  node (state_of (_render bare_widget)) = node bare_widget.
Proof.
  split; [reflexivity|]. split; [reflexivity|].
  apply (proj2 (render_needs_the_image_element bare_widget
                  (mkContentsModel "image/png" "base64") eq_refl)).
  reflexivity.
Defined.

(** A zoom on a tree without an inner container. *)
Lemma setter_stores_before_style_fails_witness :
  querySelector "div" (node bare_widget) = None /\
  strict_eq 2 (_scale bare_widget) = false /\
  exists w', set_scale 2 bare_widget = Thrown w' /\ scale w' = 2 /\
             node w' = node bare_widget.
Proof.
  split; [reflexivity|]. split; [reflexivity|].
  apply (proj1 (setter_stores_before_style_fails bare_widget 2 eq_refl)).
  reflexivity.
Defined.

(* ================================================================= *)
(** ** Fractional values *)

(** The ranges of the flips and of the inversion on fractions. *)
Lemma fractions_stay_in_range (ctx : Context)
  (es : list (Event (number := Q))) :
  Forall (in_declared_range Qle) es ->
  let w := run es (new_ImageViewer ctx) in
  (_horizontalflip w = inject_Z (-1) \/ _horizontalflip w = inject_Z 1) /\
  (_verticalflip w = inject_Z (-1) \/ _verticalflip w = inject_Z 1) /\
  (Qle (inject_Z 0) (_colorinversion w) /\
   Qle (_colorinversion w) (inject_Z 1)).
Proof.
  intros HF w. subst w.
  apply (declared_range_run (JSN := Q_number) Qle); [exact HF|].
  cbn. repeat split; auto; unfold Qle; cbn; lia.
Qed.

(** A zoom by one and a half, half an inversion and a mirror. *)
Lemma half_inversion_example :
  let es := [SetScale (Qmake 3 2); SetColorinversion (Qmake 1 2);
             SetHorizontalflip (inject_Z (-1))] in
  let w := run es (new_ImageViewer loading_context) in
  Forall (in_declared_range Qle) es /\
  _scale w = Qmake 3 2 /\
  _colorinversion w = Qmake 1 2 /\
  Qle (inject_Z 0) (_colorinversion w) /\
  Qle (_colorinversion w) (inject_Z 1) /\
  style_transform w =
    Some "translate(-50%,-50%) scale(-1.5,1.5) rotate(0deg)"%string /\
  style_filter w = Some "invert(0.5)"%string.
Proof.
  cbv zeta. split.
  - repeat constructor; unfold Qle; cbn; lia.
  - repeat split; unfold Qle; cbn; lia.
Qed.
